(** * raw_to_canvas: a shallow embedding of the grade converter

    The script reads a raw grade file and, optionally, a partner pairing file,
    merges the grades of partners and writes a Canvas file.  Its data lives in
    pandas objects.  The embedding keeps the shapes the script relies on:

    - a cell of a column is a number, a text, a boolean, the missing value
      NaN or the [None] that pads a short row;
    - the grade DataFrame, once indexed by "student", is a list of rows
      (label, score) in file order, labels possibly repeated;
    - a Python dict is an association list in insertion order, keys unique;
    - an exception is a value of [exn], a computation that may raise returns
      a [result].

    Numbers are exact rationals: the script only compares scores and copies
    them, it never computes with them.  A text is the byte string of its
    UTF-8 encoding. *)

From Stdlib Require Import Ascii String QArith Qminmax.
From stdpp Require Import base list strings pretty gmap.

Local Open Scope string_scope.
Local Open Scope list_scope.

(** ** Exceptions and results *)

Inductive exn :=
| EmptyDataError     (* pandas.errors.EmptyDataError: no column to parse *)
| ParserError        (* pandas.errors.ParserError: a row with too many fields *)
| ValueError         (* two column names for a frame of another width *)
| TypeError          (* '<' between a text and a number *)
| AttributeError     (* .lower() on a cell that is not a text *)
| KeyError           (* a key that a dict does not have *)
| FileNotFoundError  (* open() on a path that is not a file *)
| OSError            (* open(path, 'w') or a write that the system refuses *)
| UnicodeDecodeError (* a grade file that is not UTF-8 *)
| UnicodeEncodeError (* a text the encoding of the output file does not have *)
| NonScalar.         (* a score read under a repeated label: a Series, not a value *)

Inductive result (A : Type) :=
| Ok (a : A)
| Raise (e : exn).
Arguments Ok {A} a.
Arguments Raise {A} e.

Global Instance result_ret : MRet result := λ A a, Ok a.
Global Instance result_bind : MBind result := λ A B f m,
  match m with
  | Ok a => f a
  | Raise e => Raise e
  end.

Definition is_ok {A} (r : result A) : bool :=
  match r with Ok _ => true | Raise _ => false end.

(** ** Python string operations

    A Python text is kept as the bytes of its UTF-8 encoding. *)

(** The text of the bytes [l]. *)
Definition bytes (l : list nat) : string :=
  foldr (λ n s, String (ascii_of_nat n) s) EmptyString l.

Definition is_upper (c : ascii) : bool :=
  let n := nat_of_ascii c in (65 <=? n)%nat && (n <=? 90)%nat.

Definition is_lower (c : ascii) : bool :=
  let n := nat_of_ascii c in (97 <=? n)%nat && (n <=? 122)%nat.

Definition lower_char (c : ascii) : ascii :=
  if is_upper c then ascii_of_nat (nat_of_ascii c + 32) else c.

(** [str.lower()] on an ASCII text.  The case mapping of the characters
    beyond ASCII is not part of the model, which leaves their bytes as they
    are: what is stated about case is stated for ASCII texts. *)
Fixpoint lower (s : string) : string :=
  match s with
  | EmptyString => EmptyString
  | String c s' => String (lower_char c) (lower s')
  end.


(** A text without an ASCII letter. *)
Fixpoint caseless (s : string) : bool :=
  match s with
  | EmptyString => true
  | String c s' => negb (is_lower c) && negb (is_upper c) && caseless s'
  end.

(** The characters [str.strip()] removes, those of [str.isspace()]:
    U+0009 to U+000D, U+001C to U+0020, U+0085, U+00A0, U+1680, U+2000 to
    U+200A, U+2028, U+2029, U+202F, U+205F and U+3000. *)
Definition WHITESPACE : list string :=
  map bytes
    [[9]; [10]; [11]; [12]; [13]; [28]; [29]; [30]; [31]; [32];
     [194; 133]; [194; 160]; [225; 154; 128];
     [226; 128; 128]; [226; 128; 129]; [226; 128; 130]; [226; 128; 131];
     [226; 128; 132]; [226; 128; 133]; [226; 128; 134]; [226; 128; 135];
     [226; 128; 136]; [226; 128; 137]; [226; 128; 138];
     [226; 128; 168]; [226; 128; 169]; [226; 128; 175]; [226; 129; 159];
     [227; 128; 128]].

Definition is_whitespace (s : string) : bool := bool_decide (s ∈ WHITESPACE).

(** [s] without its prefix [p], if it starts with [p]. *)
Fixpoint drop_prefix (p s : string) : option string :=
  match p, s with
  | EmptyString, _ => Some s
  | String a p', String b s' => if bool_decide (a = b) then drop_prefix p' s' else None
  | String _ _, EmptyString => None
  end.

(** [s] without its first character, if that is white space. *)
Definition take_space (s : string) : option string :=
  foldr (λ w found, match drop_prefix w s with Some rest => Some rest | None => found end)
        None WHITESPACE.

Fixpoint lstrip_upto (n : nat) (s : string) : string :=
  match n with
  | O => s
  | S n' =>
      match take_space s with
      | Some rest => lstrip_upto n' rest
      | None => s
      end
  end.

(** [str.lstrip()]; a text has no more characters than bytes. *)
Definition lstrip (s : string) : string := lstrip_upto (String.length s) s.

(** [str.rstrip()] *)
Fixpoint rstrip (s : string) : string :=
  match s with
  | EmptyString => EmptyString
  | String c s' =>
      let r := rstrip s' in
      if is_whitespace (String c r) then EmptyString else String c r
  end.

(** [str.strip()] *)
Definition strip (s : string) : string := rstrip (lstrip s).

Definition LF : string := String (ascii_of_nat 10) EmptyString.
Definition DQUOTE : ascii := ascii_of_nat 34.

(** ** Decoding

    [utf8_valid]: the bytes are the UTF-8 encoding of a text, as the strict
    decoder of Python has it: no stray or missing continuation byte, no
    overlong form, no surrogate, nothing above U+10FFFF. *)

Definition in_range (lo hi : nat) (c : ascii) : bool :=
  let n := nat_of_ascii c in (lo <=? n)%nat && (n <=? hi)%nat.

Definition is_cont (c : ascii) : bool := in_range 128 191 c.

(** The first two bytes of a character of three bytes, of four bytes. *)
Definition lead3 (c c1 : ascii) : bool :=
  (in_range 224 224 c && in_range 160 191 c1)
  || ((in_range 225 236 c || in_range 238 239 c) && is_cont c1)
  || (in_range 237 237 c && in_range 128 159 c1).

Definition lead4 (c c1 : ascii) : bool :=
  (in_range 240 240 c && in_range 144 191 c1)
  || (in_range 241 243 c && is_cont c1)
  || (in_range 244 244 c && in_range 128 143 c1).

Fixpoint utf8_valid (s : string) : bool :=
  match s with
  | EmptyString => true
  | String c s1 =>
      if in_range 0 127 c then utf8_valid s1
      else
        match s1 with
        | EmptyString => false
        | String c1 s2 =>
            if in_range 194 223 c && is_cont c1 then utf8_valid s2
            else
              match s2 with
              | EmptyString => false
              | String c2 s3 =>
                  if lead3 c c1 && is_cont c2 then utf8_valid s3
                  else
                    match s3 with
                    | EmptyString => false
                    | String c3 s4 =>
                        if lead4 c c1 && is_cont c2 && is_cont c3 then utf8_valid s4
                        else false
                    end
              end
        end
  end.

(** ** The byte order mark

    U+FEFF at the head of the first field of the first row, as
    [_check_for_bom] of the python parser drops it. *)

Definition BOM : string := bytes [239; 187; 191].

(** The text up to the first double quote, and the text after it. *)
Fixpoint cut_at_quote (s : string) : option (string * string) :=
  match s with
  | EmptyString => None
  | String c s' =>
      if bool_decide (c = DQUOTE) then Some (EmptyString, s')
      else
        match cut_at_quote s' with
        | Some (inside, after) => Some (String c inside, after)
        | None => None
        end
  end.

(** The separator of the grade file, the regular expression [\t|,]. *)
Definition is_sep (c : ascii) : bool :=
  (nat_of_ascii c =? 9)%nat || (nat_of_ascii c =? 44)%nat.

(** [re.compile('\t|,').split(s)] *)
Fixpoint split_fields (s : string) : list string :=
  match s with
  | EmptyString => [EmptyString]
  | String c s' =>
      if is_sep c then EmptyString :: split_fields s'
      else match split_fields s' with
           | f :: fs => String c f :: fs
           | [] => [String c EmptyString]
           end
  end.

(** ** Cells and Python dicts *)

(** A cell of a pandas column: a number (int64 or float64), a text (object
    dtype), the missing value NaN, a boolean, or the [None] that pads a short
    row in a column of texts. *)
Inductive cell :=
| Num (q : Q)
| Text (s : string)
| NaN
| Bool (b : bool)
| PyNone.

Global Instance Q_eq_dec : EqDecision Q.
Proof. solve_decision. Defined.

Global Instance cell_eq_dec : EqDecision cell.
Proof. solve_decision. Defined.

(** A dict with text keys and values, in insertion order. *)
Abbreviation dict := (list (string * string)).

(** [d.get(k)]: [None] when [k not in d]. *)
Fixpoint dict_get (d : dict) (k : string) : option string :=
  match d with
  | [] => None
  | (k', v) :: d' => if decide (k = k') then Some v else dict_get d' k
  end.

(** [d[k] = v]: a known key keeps its place and takes the new value. *)
Fixpoint dict_set (d : dict) (k v : string) : dict :=
  match d with
  | [] => [(k, v)]
  | (k', v') :: d' =>
      if decide (k = k') then (k', v) :: d' else (k', v') :: dict_set d' k v
  end.

(** [dict(pairs)] *)
Definition dict_of_pairs (l : list (string * string)) : dict :=
  foldl (λ d kv, dict_set d kv.1 kv.2) [] l.

(** ** class BColors *)

Module BColors.
Definition ESC : string := String (ascii_of_nat 27) EmptyString.
Definition WARNING : string := ESC +:+ "[93m".
Definition FAIL : string := ESC +:+ "[91m".
Definition ENDC : string := ESC +:+ "[0m".
End BColors.

(** ** class Partners *)

(** [preprocess = lambda x: x.lower().strip()]; a cell that is not a text has
    no [lower]. *)
Definition preprocess (x : cell) : result string :=
  match x with
  | Text s => Ok (strip (lower s))
  | _ => Raise AttributeError
  end.

(** [zip(map(preprocess, df[P1]), map(preprocess, df[P2]))], the frame given
    by its rows over the two columns. *)
Fixpoint preprocess_rows (rows : list (cell * cell)) : result (list (string * string)) :=
  match rows with
  | [] => Ok []
  | (x, y) :: rows' =>
      a ← preprocess x;
      b ← preprocess y;
      rest ← preprocess_rows rows';
      Ok ((a, b) :: rest)
  end.

(** The filter of line 59: [elem[1] not in d or d[elem[1]] != elem[0]]. *)
Definition not_reciprocated (d : dict) (elem : string * string) : bool :=
  match dict_get d elem.2 with
  | None => true
  | Some back => negb (bool_decide (back = elem.1))
  end.

Definition no_partners (d : dict) : dict :=
  dict_of_pairs (filter (λ elem, not_reciprocated d elem = true) d).

(** What lines 62-66 print, one element per call of [print]. *)
Definition asymmetric_warning (d : dict) : list string :=
  match no_partners d with
  | [] => []
  | np =>
      (BColors.WARNING +:+ " Warning! Asymmetric partners:")
        :: map (λ kv, kv.1 +:+ " " +:+ kv.2) np ++ [BColors.ENDC]
  end.

(** [Partners.__init__] on the two identifier columns of the pairing file:
    the dict kept in [self._partners] and the printed lines. *)
Definition Partners_init (rows : list (cell * cell)) : result (dict * list string) :=
  pairs ← preprocess_rows rows;
  let d := dict_of_pairs pairs in
  Ok (d, asymmetric_warning d).

(** ** pandas.read_csv as [Grades.__init__] calls it

    [pd.read_csv(csv, sep='\t|,', engine='python', skipinitialspace=True,
    header=None)].  The file is decoded as UTF-8.  With a separator that is
    a regular expression the python engine strips each line and splits it
    with [re.split]; the csv dialect, and with it [skipinitialspace], is not
    used.  Blank lines are skipped.
    The first row fixes the number of columns; a shorter row is padded with
    missing values and a longer one raises ParserError (the model does not
    follow the engine when it takes the leading fields of a second row that
    is longer than the first for an implicit index).  A column whose
    fields are all numbers or NA markers becomes numeric, a column of the
    words true and false becomes boolean, any other column keeps its fields
    as text. *)

(** The default NA markers of pandas 1.x. *)
Definition STR_NA_VALUES : list string :=
  [""; "#N/A"; "#N/A N/A"; "#NA"; "-1.#IND"; "-1.#QNAN"; "-NaN"; "-nan";
   "1.#IND"; "1.#QNAN"; "<NA>"; "N/A"; "NA"; "NULL"; "NaN"; "n/a"; "nan"; "null"].

Definition is_na (s : string) : bool := bool_decide (s ∈ STR_NA_VALUES).

(** The default [true_values] and [false_values] of the parser. *)
Definition is_true_word (s : string) : bool := bool_decide (s ∈ ["True"; "TRUE"; "true"]).
Definition is_false_word (s : string) : bool := bool_decide (s ∈ ["False"; "FALSE"; "false"]).

(** A row that [_remove_empty_lines] keeps: more than one field, or one field
    that is not blank. *)
Definition non_blank (row : list string) : bool :=
  match row with
  | [] => false
  | [f] => negb (bool_decide (strip f = EmptyString))
  | _ => true
  end.

(** The fields of the lines that are not blank. *)
Definition rows_of (lines : list string) : list (list string) :=
  filter (λ row, non_blank row = true) (map (λ l, split_fields (strip l)) lines).

(** [_check_for_bom] on the first field of a row: a field that starts with
    the mark loses it; if a double quote follows the mark, the field becomes
    the text up to the next quote and the text after that quote, and
    [str.index] raises ValueError when there is no next quote. *)
Definition bom_field (first : string) : result string :=
  match drop_prefix BOM first with
  | None => Ok first
  | Some EmptyString => Ok EmptyString
  | Some (String q quoted) =>
      if bool_decide (q = DQUOTE) then
        match cut_at_quote quoted with
        | Some (inside, after) => Ok (inside +:+ after)
        | None => Raise ValueError
        end
      else Ok (String q quoted)
  end.

Definition check_for_bom (row : list string) : result (list string) :=
  match row with
  | [] => Ok []
  | first :: others => first' ← bom_field first; Ok (first' :: others)
  end.

(** The parser looks for the mark in the row of the first line of the file,
    when that line is not blank, and nowhere else. *)
Definition first_line_row (lines : list string) : option (list string) :=
  match lines with
  | l :: _ =>
      let row := split_fields (strip l) in
      if non_blank row then Some row else None
  | [] => None
  end.

Definition bom_check (lines : list string) : result unit :=
  match first_line_row lines with
  | Some row => _ ← check_for_bom row; Ok tt
  | None => Ok tt
  end.

(** The rows the parser yields. *)
Definition parse_rows (lines : list string) : list (list string) :=
  match first_line_row lines, lines with
  | Some row, _ :: ls =>
      match check_for_bom row with
      | Ok row' => row' :: rows_of ls
      | Raise _ => row :: rows_of ls
      end
  | _, _ => rows_of lines
  end.

(** The grade frame once indexed by "student": rows (label, score) in file
    order. *)
Abbreviation DataFrame := (list (cell * cell)).

Section ReadCsv.

(** The number a field reads as, when pandas reads it as one.  Reading a
    float from text is left to this parameter. *)
Variable to_number : string → option Q.

Definition numeric_or_na (f : option string) : bool :=
  match f with
  | None => true
  | Some s => is_na s || bool_decide (is_Some (to_number s))
  end.

Definition numeric_cell (f : option string) : cell :=
  match f with
  | None => NaN
  | Some s => if is_na s then NaN else from_option Num NaN (to_number s)
  end.

(** In a column that is not numeric an NA marker still becomes NaN; the pad
    of a short row stays [None]. *)
Definition object_cell (f : option string) : cell :=
  match f with
  | None => PyNone
  | Some s => if is_na s then NaN else Text s
  end.

(** [maybe_convert_bool]: a column of the words below, NA markers apart,
    becomes a column of booleans. *)
Definition bool_or_na (f : option string) : bool :=
  match f with
  | None => false
  | Some s => is_na s || is_true_word s || is_false_word s
  end.

Definition bool_cell (f : option string) : cell :=
  match f with
  | None => PyNone
  | Some s => if is_na s then NaN else Bool (is_true_word s)
  end.

(** The inferred type of one column: numbers if every field is a number or
    an NA marker, else booleans if every field is a boolean word or an NA
    marker, else the fields as texts. *)
Definition infer_column (fields : list (option string)) : list cell :=
  if forallb numeric_or_na fields then map numeric_cell fields
  else if forallb bool_or_na fields then map bool_cell fields
  else map object_cell fields.

(** The fields of column [j], a missing one where a row is too short. *)
Definition column (j : nat) (rows : list (list string)) : list (option string) :=
  map (λ row : list string, row !! j) rows.

(** The frame read, as the list of its columns. *)
Definition read_csv (lines : list string) : result (list (list cell)) :=
  _ ← bom_check lines;
  match parse_rows lines with
  | [] => Raise EmptyDataError
  | first :: rest =>
      let ncols := length first in
      if forallb (λ row, length row <=? ncols)%nat rest
      then Ok (map (λ j, infer_column (column j (first :: rest))) (seq 0 ncols))
      else Raise ParserError
  end.

(** ** class Grades *)

(** [Grades.__init__] on the lines of the decoded file: read, name the two
    columns (ValueError on another number of columns), index by the first. *)
Definition Grades_init (lines : list string) : result DataFrame :=
  columns ← read_csv lines;
  match columns with
  | [student; score] => Ok (zip student score)
  | _ => Raise ValueError
  end.

End ReadCsv.

(** An instance of [to_number] for the examples: unsigned decimals such as
    [7], [8.0] or [4.123]. *)
Definition digit_value (c : ascii) : option Z :=
  let n := nat_of_ascii c in
  if (48 <=? n)%nat && (n <=? 57)%nat then Some (Z.of_nat (n - 48)) else None.

Fixpoint digits_value (acc : Z) (s : string) : option Z :=
  match s with
  | EmptyString => Some acc
  | String c s' =>
      match digit_value c with
      | Some d => digits_value (10 * acc + d) s'
      | None => None
      end
  end.

Fixpoint split_dot (s : string) : string * option string :=
  match s with
  | EmptyString => (EmptyString, None)
  | String c s' =>
      if bool_decide (c = "."%char) then (EmptyString, Some s')
      else let '(i, f) := split_dot s' in (String c i, f)
  end.

Definition decimal (s : string) : option Q :=
  match split_dot s with
  | (EmptyString, _) => None
  | (i, None) => (λ n, inject_Z n) <$> digits_value 0 i
  | (i, Some f) =>
      n ← digits_value 0 (i +:+ f);
      Some (Qred (n # Pos.of_nat (10 ^ String.length f)))
  end.

(** ** Grades.merge_partners_grades *)

(** [self._df.index] *)
Definition index (df : DataFrame) : list cell := df.*1.

(** The scores under a label, [self._df.loc[label]["score"]]: one value when
    the label is unique in the index, a Series otherwise. *)
Definition loc (df : DataFrame) (label : cell) : list cell :=
  (filter (λ row, row.1 = label) df).*2.

(** The read of a score as the loop uses it.  Under a repeated label the
    read is a Series: [min] raises on it, and the branch of the absent
    partner would store the Series itself in the new row; the model stops at
    both with [NonScalar]. *)
Definition loc_score (df : DataFrame) (label : cell) : result cell :=
  match loc df label with
  | [v] => Ok v
  | _ => Raise NonScalar
  end.

(** [self._df.loc[label]["score"] = v] for a unique label.  The frame has the
    single column "score": in the pandas the script runs on (before 2.0,
    where DataFrame.append still exists) the row that [loc] selects is then a
    view of the frame, and the assignment reaches the frame. *)
Definition set_score (df : DataFrame) (label v : cell) : DataFrame :=
  map (λ row, if decide (row.1 = label) then (row.1, v) else row) df.

Definition Qltb (x y : Q) : bool :=
  match Qcompare x y with Lt => true | _ => false end.

(** A boolean as the number it is in a comparison. *)
Definition Q_of_bool (b : bool) : Q := if b then 1 else 0.

(** Python's [x < y] on two cells: numbers and booleans compare as numbers,
    NaN is below and above nothing, texts compare with texts; a text against
    a number and [None] against anything raise. *)
Definition py_lt (x y : cell) : result bool :=
  match x, y with
  | Num a, Num b => Ok (Qltb a b)
  | Num a, Bool b => Ok (Qltb a (Q_of_bool b))
  | Bool a, Num b => Ok (Qltb (Q_of_bool a) b)
  | Bool a, Bool b => Ok (Qltb (Q_of_bool a) (Q_of_bool b))
  | Text a, Text b => Ok (String.ltb a b)
  | (Num _ | Bool _ | NaN), NaN | NaN, (Num _ | Bool _) => Ok false
  | _, _ => Raise TypeError
  end.

(** Python's [min(x, y)]: [y] when [y < x], else [x]. *)
Definition py_min (x y : cell) : result cell :=
  smaller ← py_lt y x;
  Ok (if smaller : bool then y else x).

Fixpoint foldM {A B} (f : A → B → result A) (a : A) (l : list B) : result A :=
  match l with
  | [] => Ok a
  | x :: l' => a' ← f a x; foldM f a' l'
  end.

(** One turn of the loop of lines 217-238 on the pair ([self._df],
    [partner_df]). *)
Definition merge_step (partners : dict) (st : DataFrame * DataFrame) (student : cell)
  : result (DataFrame * DataFrame) :=
  let '(df, partner_df) := st in
  match student with
  | Text s =>
      match dict_get partners s with
      | None => Ok st
      | Some partner =>
          student_score ← loc_score df student;
          if decide (Text partner ∈ index df) then
            partner_score ← loc_score df (Text partner);
            m ← py_min student_score partner_score;
            Ok (set_score (set_score df student m) (Text partner) m, partner_df)
          else
            Ok (df, partner_df ++ [(Text partner, student_score)])
      end
  | _ => Ok st
  end.

(** [partners] is [None] when the configuration names no pairing file. *)
Definition merge_partners_grades (df : DataFrame) (partners : option dict) : result DataFrame :=
  match partners with
  | None | Some [] => Ok df
  | Some p =>
      '(df', partner_df) ← foldM (merge_step p) (df, []) (index df);
      Ok (df' ++ partner_df)
  end.

(** ** Grades.write and CanvasWriter.write *)

(** The characters that make [csv.writer] quote a field under QUOTE_MINIMAL:
    the delimiter, the quote character and the line terminator. *)
Definition is_special (c : ascii) : bool :=
  let n := nat_of_ascii c in (n =? 44)%nat || (n =? 34)%nat || (n =? 10)%nat.

Fixpoint has_special (s : string) : bool :=
  match s with
  | EmptyString => false
  | String c s' => is_special c || has_special s'
  end.

Fixpoint double_quotes (s : string) : string :=
  match s with
  | EmptyString => EmptyString
  | String c s' =>
      if bool_decide (c = DQUOTE) then String c (String c (double_quotes s'))
      else String c (double_quotes s')
  end.

(** A text field as [csv.writer] writes it: between quotes, its own quotes
    doubled, when it holds a special character, and as it is otherwise. *)
Definition csv_field (s : string) : string :=
  if has_special s
  then String DQUOTE (double_quotes s) +:+ String DQUOTE EmptyString
  else s.

Section Output.

(** The text of a number in the written score column.  It is a parameter:
    pandas writes a column of integers without a decimal point and a column
    of floats with the shortest digits that give the float back, and the
    frame of the model does not say which of the two its column is. *)
Variable label_repr : Q → string.
Variable float_repr : Q → string.

(** A cell as [to_csv] writes it; a missing value, NaN or [None], is the
    empty field. *)
Definition cell_field (c : cell) : string :=
  match c with
  | Num q => float_repr q
  | Text s => csv_field s
  | Bool b => if b then "True" else "False"
  | NaN | PyNone => EmptyString
  end.

(** The index label of a row as [to_csv] writes it.  A label that is a
    number is written as the index has it, which need not be the way of the
    score column: its text is a parameter of its own. *)
Definition label_field (c : cell) : string :=
  match c with
  | Num q => label_repr q
  | _ => cell_field c
  end.

Definition csv_line (row : cell * cell) : string :=
  label_field row.1 +:+ "," +:+ cell_field row.2 +:+ LF.

(** [self._df.to_csv(writer, header=False)]: the index label, then the
    score, one line per row. *)
Definition to_csv (df : DataFrame) : string :=
  foldr String.append EmptyString (map csv_line df).

(** The text [CanvasWriter.write] puts in the output file when no write is
    refused. *)
Definition canvas_text (df : DataFrame) (assignment_name points_possible : string) : string :=
  ("," +:+ assignment_name +:+ LF)
    +:+ ("Points Possible," +:+ points_possible +:+ LF)
    +:+ to_csv df.

End Output.

(** An instance of [float_repr] for the examples: the integer part and one
    decimal, exact for scores such as 7.0 or 2.5. *)
Definition one_decimal (q : Q) : string :=
  let tenths := (Qnum q * 10 / Zpos (Qden q))%Z in
  pretty (tenths / 10)%Z +:+ "." +:+ pretty (tenths mod 10)%Z.

(** ** The process: files, terminal, exit

    The files of the machine are a finite map from a path to the content of
    a regular file.  The trace records, in order, what the process printed and
    which file it opened for which purpose.  What the system refuses when the
    process writes is given with the machine: [refuses path None] is the
    exception of [open(path, 'w')], if it raises (a directory that is not
    there, a permission), and [refuses path (Some text)] the exception of
    writing [text] to the file open at [path], if that raises (a text the
    encoding of the file does not have). *)

Inductive event :=
| Stdout (line : string)
| OpenConfig (path : string)
| OpenPartners (path : string)
| OpenGrades (path : string)
| OpenOutput (path : string).

Record world := World {
  files : gmap string string;
  trace : list event;
  refuses : string → option string → option exn
}.

(** How a computation of the process ends: with a value, by [exit(code)], or
    by an exception nobody catches. *)
Inductive outcome (A : Type) :=
| Return (a : A)
| Exit (code : Z)
| Uncaught (e : exn).
Arguments Return {A} a.
Arguments Exit {A} code.
Arguments Uncaught {A} e.

Definition proc (A : Type) : Type := world → outcome A * world.

Definition proc_bind {A B} (m : proc A) (k : A → proc B) : proc B :=
  λ w, match m w with
       | (Return a, w') => k a w'
       | (Exit c, w') => (Exit c, w')
       | (Uncaught e, w') => (Uncaught e, w')
       end.

Notation "'do' x <- m ; k" := (proc_bind m (λ x, k))
  (at level 10, x pattern, m at level 100, k at level 200).
Notation "m ;; k" := (proc_bind m (λ _, k))
  (at level 100, k at level 200, right associativity).

Definition pure {A} (a : A) : proc A := λ w, (Return a, w).
Definition exit {A} (code : Z) : proc A := λ w, (Exit code, w).
Definition lift {A} (r : result A) : proc A :=
  λ w, match r with Ok a => (Return a, w) | Raise e => (Uncaught e, w) end.

Definition log (e : event) : proc unit :=
  λ w, (Return tt, World (files w) (trace w ++ [e]) (refuses w)).

Definition print (line : string) : proc unit := log (Stdout line).

(** [os.path.isfile] *)
Definition isfile (path : string) : proc bool :=
  λ w, (Return (bool_decide (is_Some (files w !! path))), w).

(** Opening a file for reading and reading it whole. *)
Definition read_file (purpose : string → event) (path : string) : proc string :=
  λ w, match files w !! path with
       | Some text => (Return text, World (files w) (trace w ++ [purpose path]) (refuses w))
       | None => (Uncaught FileNotFoundError, w)
       end.

(** [open(path, 'w')]: the file is created, or emptied if it was there;
    nothing is touched when the system refuses. *)
Definition open_w (path : string) : proc unit :=
  λ w, match refuses w path None with
       | Some e => (Uncaught e, w)
       | None =>
           (Return tt,
            World (<[path := EmptyString]> (files w)) (trace w ++ [OpenOutput path])
                  (refuses w))
       end.

(** [writer.write(text)] on the file open at [path]: the text goes after
    what the file holds; a refused write leaves what was written before. *)
Definition write (path text : string) : proc unit :=
  λ w, match refuses w path (Some text) with
       | Some e => (Uncaught e, w)
       | None =>
           (Return tt,
            World (<[path := default EmptyString (files w !! path) +:+ text]> (files w))
                  (trace w) (refuses w))
       end.

Fixpoint write_all (path : string) (texts : list string) : proc unit :=
  match texts with
  | [] => pure tt
  | text :: texts' => write path text ;; write_all path texts'
  end.

(** The lines a text file yields when it is iterated: LF, CR LF and CR end a
    line. *)
Definition prepend (c : ascii) (lines : list string) : list string :=
  match lines with
  | [] => [String c EmptyString]
  | l :: ls => String c l :: ls
  end.

Fixpoint splitlines (s : string) : list string :=
  match s with
  | EmptyString => []
  | String c s' =>
      if (nat_of_ascii c =? 10)%nat then EmptyString :: splitlines s'
      else if (nat_of_ascii c =? 13)%nat then
        match s' with
        | String c' s'' =>
            if (nat_of_ascii c' =? 10)%nat then EmptyString :: splitlines s''
            else EmptyString :: splitlines s'
        | EmptyString => [EmptyString]
        end
      else prepend c (splitlines s')
  end.

(** [Grades(csv=path)] on the bytes of the file at [path]: the file is
    decoded, cut into lines and parsed. *)
Definition Grades_from_file (to_number : string → option Q) (content : string)
  : result DataFrame :=
  if utf8_valid content then Grades_init to_number (splitlines content)
  else Raise UnicodeDecodeError.

(** ** class Config *)

Module Config.
Definition POINTS_POSSIBLE : string := "points".
Definition ASSIGNMENT_NAME : string := "assignment".
Definition GRADES : string := "grades".
Definition PARTNERS : string := "partners".
Definition OUTPUT_FILE : string := "output_file".
End Config.

Definition quoted (s : string) : string :=
  String DQUOTE s +:+ String DQUOTE EmptyString.

Definition fail_line (text : string) : string :=
  BColors.FAIL +:+ " Error! " +:+ text +:+ " " +:+ BColors.ENDC.

(** [key in config] *)
Definition has_key (config : dict) (key : string) : bool :=
  bool_decide (is_Some (dict_get config key)).

(** [config[key]] *)
Definition getitem (config : dict) (key : string) : proc string :=
  match dict_get config key with
  | Some v => pure v
  | None => lift (Raise KeyError)
  end.

(** [_verify_config], lines 120-141. *)
Definition _verify_config (config : dict) : proc unit :=
  (if has_key config Config.POINTS_POSSIBLE then pure tt
   else print (fail_line ("Key " +:+ quoted Config.POINTS_POSSIBLE +:+ " not in config file.")) ;; exit 1) ;;
  (if has_key config Config.ASSIGNMENT_NAME then pure tt
   else print (fail_line ("Key " +:+ quoted Config.ASSIGNMENT_NAME +:+ " not in config file.")) ;; exit 1) ;;
  (if has_key config Config.GRADES then pure tt
   else print (fail_line ("key " +:+ quoted Config.GRADES +:+ " not in config file.")) ;; exit 1) ;;
  (if has_key config Config.OUTPUT_FILE then pure tt
   else print (fail_line ("key " +:+ quoted Config.OUTPUT_FILE +:+ " not in config file.")) ;; exit 1) ;;
  (do grades <- getitem config Config.GRADES ;
   do found <- isfile grades ;
   if found : bool then pure tt
   else print (fail_line (grades +:+ " is not a valid path.")) ;; exit 1) ;;
  (match dict_get config Config.PARTNERS with
   | None => pure tt
   | Some partners =>
       do found <- isfile partners ;
       if found : bool then pure tt
       else print (fail_line (partners +:+ " is not a valid path.")) ;; exit 1
   end).

Section Script.

(** What pandas and json do with the text of a file is a parameter where
    the script leaves it to them: the number a field reads as, the text of
    a number, the object a JSON text decodes to (an object with text
    values, as the docstring of [Config] shows it; [None] on
    JSONDecodeError), and the two identifier columns of the pairing file. *)
Variable to_number : string → option Q.
Variable label_repr : Q → string.
Variable float_repr : Q → string.
Variable json_load : string → option dict.
Variable read_pairing : string → result (list (cell * cell)).

(** [Config.__init__], lines 143-161. *)
Definition Config_init (json_file : string) : proc dict :=
  do found <- isfile json_file ;
  if found : bool then
    do js <- read_file OpenConfig json_file ;
    match json_load js with
    | None =>
        print (fail_line ("Could not decode JSON file: " +:+ quoted json_file +:+ ".")) ;;
        exit 1
    | Some config => _verify_config config ;; pure config
    end
  else
    print (fail_line (quoted json_file +:+ " is not a file, please enter a valid path.")) ;;
    exit 1.

Fixpoint print_all (lines : list string) : proc unit :=
  match lines with
  | [] => pure tt
  | l :: ls => print l ;; print_all ls
  end.

(** [CanvasWriter.write]: the file is opened, the two head lines are
    written, and [to_csv] hands [csv.writer] the rows, which writes one line
    after the other. *)
Definition CanvasWriter_write (output_file : string) (grades : DataFrame)
    (assignment_name points_possible : string) : proc unit :=
  open_w output_file ;;
  write output_file ("," +:+ assignment_name +:+ LF) ;;
  write output_file ("Points Possible," +:+ points_possible +:+ LF) ;;
  write_all output_file (map (csv_line label_repr float_repr) grades).

(** [main], lines 294-300, after the command line gave [--config]. *)
Definition main (config_path : string) : proc unit :=
  do config <- Config_init config_path ;
  do partners <-
    match dict_get config Config.PARTNERS with
    | Some path =>
        do text <- read_file OpenPartners path ;
        do rows <- lift (read_pairing text) ;
        do r <- lift (Partners_init rows) ;
        print_all r.2 ;; pure (Some r.1)
    | None => pure None
    end ;
  do grades_path <- getitem config Config.GRADES ;
  do text <- read_file OpenGrades grades_path ;
  do grades <- lift (Grades_from_file to_number text) ;
  do merged <- lift (merge_partners_grades grades partners) ;
  do output_file <- getitem config Config.OUTPUT_FILE ;
  do assignment_name <- getitem config Config.ASSIGNMENT_NAME ;
  do points_possible <- getitem config Config.POINTS_POSSIBLE ;
  CanvasWriter_write output_file merged assignment_name points_possible.

End Script.

(** The exit code of the process: 0 at the end of [main], the argument of
    [exit], 1 after a traceback. *)
Definition exit_code {A} (o : outcome A) : Z :=
  match o with
  | Return _ => 0
  | Exit c => c
  | Uncaught _ => 1
  end.

(** ** One turn of the merge loop, seen from outside

    What a turn does to the frame [df] and to the rows [partner_df] waiting to
    be appended, when the scores it reads are numbers under unique labels:
    nothing for a student without a partner entry, one more waiting row for a
    partner who is not in the index, the minimum written to both rows
    otherwise. *)
Inductive turn (partners : dict) (df partner_df : DataFrame) (student : cell)
  : DataFrame → DataFrame → Prop :=
| turn_skip :
    (∀ s, student = Text s → dict_get partners s = None) →
    turn partners df partner_df student df partner_df
| turn_absent s partner v :
    student = Text s → dict_get partners s = Some partner →
    Text partner ∉ index df → loc df student = [v] →
    turn partners df partner_df student df (partner_df ++ [(Text partner, v)])
| turn_both s partner qs qp :
    student = Text s → dict_get partners s = Some partner →
    Text partner ∈ index df →
    loc df student = [Num qs] → loc df (Text partner) = [Num qp] →
    turn partners df partner_df student
      (set_score (set_score df student (Num (Qmin qs qp))) (Text partner) (Num (Qmin qs qp)))
      partner_df.

(** ** Configurations that [_verify_config] turns down

    A required key is missing, or the grades path, or the partners path when
    there is one, is not the path of a file. *)
Definition config_error (fs : gmap string string) (config : dict) : Prop :=
  dict_get config Config.POINTS_POSSIBLE = None
  ∨ dict_get config Config.ASSIGNMENT_NAME = None
  ∨ dict_get config Config.GRADES = None
  ∨ dict_get config Config.OUTPUT_FILE = None
  ∨ (∃ path, dict_get config Config.GRADES = Some path ∧ fs !! path = None)
  ∨ (∃ path, dict_get config Config.PARTNERS = Some path ∧ fs !! path = None).

(** ** Score records

    The ScoreRecord of the specification is a mapping from a student to a
    numeric score: a frame whose labels are pairwise distinct and whose scores
    are numbers. *)

Definition is_num (c : cell) : bool :=
  match c with Num _ => true | _ => false end.

Definition score_record (df : DataFrame) : Prop :=
  NoDup (index df) ∧ Forall (λ row, is_num row.2 = true) df.


(** A text is normalized when [lower] and [strip] leave it as it is. *)
Definition normalized (s : string) : Prop := lower s = s ∧ strip s = s.


(** A text without a line break. *)
Fixpoint no_linebreak (s : string) : bool :=
  match s with
  | EmptyString => true
  | String c s' =>
      negb ((nat_of_ascii c =? 10)%nat || (nat_of_ascii c =? 13)%nat) && no_linebreak s'
  end.

(** ** Computations that leave the files alone

    A computation is quiet when, however it ends, the files are as they were
    and no output file was opened. *)
Definition quiet {A} (m : proc A) : Prop :=
  ∀ w o w', m w = (o, w') →
    files w' = files w ∧
    ∃ events, trace w' = trace w ++ events ∧
              Forall (λ e, ∀ path, e ≠ OpenOutput path) events.

(** A computation keeps to the output file when the files change only
    after it opened a file for writing, no file but that one changes, and
    [exit] is never called after the opening. *)
Definition keeps_to_output {A} (m : proc A) : Prop :=
  ∀ w o w', m w = (o, w') →
    ∃ events, trace w' = trace w ++ events ∧
      ((∀ path, OpenOutput path ∉ events) → files w' = files w) ∧
      (∀ path, OpenOutput path ∈ events →
         (∀ c, o ≠ Exit c) ∧ ∀ p, p ≠ path → files w' !! p = files w !! p).

(** ** The rows the merge appends

    The label a turn of the loop puts aside for the append: the partner of a
    student with a partner entry, when the index does not have it. *)
Definition absent_partner (partners : dict) (df : DataFrame) (student : cell) : option cell :=
  match student with
  | Text s =>
      match dict_get partners s with
      | Some partner =>
          if decide (Text partner ∈ index df) then None else Some (Text partner)
      | None => None
      end
  | _ => None
  end.

(** ** Clean grade lines

    A text without a tab or a comma. *)
Fixpoint no_sep (s : string) : bool :=
  match s with
  | EmptyString => true
  | String c s' => negb (is_sep c) && no_sep s'
  end.

(** A line [key sep score] of a grade file. *)
Definition grade_line (entry : string * ascii * string) : string :=
  entry.1.1 +:+ String entry.1.2 entry.2.

(** A line whose key goes through the converter as it is: no white space at
    the two ends of the line and no line break in it, a tab or a comma between
    a key and a score that hold neither, a key that pandas reads as a text
    (no NA marker, no number, no boolean word, no byte order mark at its
    head) and csv writes without quotes, and a score that pandas reads as a
    number. *)
Definition clean_entry (to_number : string → option Q)
    (entry : string * ascii * string) : Prop :=
  let '(key, sep, score) := entry in
  is_sep sep = true ∧ no_sep key = true ∧ no_sep score = true ∧
  strip (grade_line entry) = grade_line entry ∧
  no_linebreak (grade_line entry) = true ∧
  is_na key = false ∧ to_number key = None ∧
  is_true_word key = false ∧ is_false_word key = false ∧
  drop_prefix BOM key = None ∧ has_special key = false ∧
  is_na score = false ∧ is_Some (to_number score).

(** * Properties *)

(** ** Sanity checks of the embedding *)

Example split_fields_ex : split_fields "alice,8.0" = ["alice"; "8.0"].
Proof. reflexivity. Qed.

Example strip_unicode_ex :
  strip (bytes [194; 160] +:+ "Al ice" +:+ bytes [226; 128; 131; 9]) = "Al ice".
Proof. by vm_compute. Qed.

Example utf8_valid_ex :
  utf8_valid ("Ana" +:+ bytes [195; 169]) = true
  ∧ utf8_valid (bytes [233]) = false            (* a Latin-1 byte *)
  ∧ utf8_valid (bytes [192; 128]) = false       (* an overlong form *)
  ∧ utf8_valid (bytes [237; 160; 128]) = false  (* a surrogate *)
  ∧ utf8_valid (bytes [240; 159; 152; 128]) = true.
Proof. by vm_compute. Qed.

Example bool_column_ex :
  Grades_init decimal ["true,8.0"] = Ok [(Bool true, Num 8)]
  ∧ to_csv one_decimal one_decimal [(Bool true, Num 8)] = "True,8.0" +:+ LF.
Proof. by vm_compute. Qed.

Example short_row_ex :
  Grades_init decimal ["a,x"; "b"] = Ok [(Text "a", Text "x"); (Text "b", PyNone)]
  ∧ Grades_init decimal ["a,1"; "b"] = Ok [(Text "a", Num 1); (Text "b", NaN)].
Proof. by vm_compute. Qed.

Example bom_quote_ex :
  Grades_init decimal [BOM +:+ String DQUOTE "al" +:+ String DQUOTE "x,1"]
    = Ok [(Text "alx", Num 1)]
  ∧ Grades_init decimal [BOM +:+ String DQUOTE "al,1"] = Raise ValueError.
Proof. by vm_compute. Qed.

Example strip_ex : strip "  Al ice " = "Al ice".
Proof. reflexivity. Qed.

Example decimal_ex :
  decimal "8.0" = Some 8%Q ∧ decimal "4.125" = Some (33 # 8) ∧ decimal "abc" = None.
Proof. by vm_compute. Qed.

Example Partners_init_ex :
  Partners_init [(Text " Ann", Text "BOB "); (Text "bob", Text "ann"); (Text "cy", Text "ann")]
  = Ok ([("ann", "bob"); ("bob", "ann"); ("cy", "ann")],
        [BColors.WARNING +:+ " Warning! Asymmetric partners:"; "cy ann"; BColors.ENDC]).
Proof. vm_compute. reflexivity. Qed.

Example Grades_init_ex :
  Grades_init decimal ["student1" +:+ String (ascii_of_nat 9) "8.0"; ""; " student2,0.5 "]
  = Ok [(Text "student1", Num 8); (Text "student2", Num (1 # 2))].
Proof. vm_compute. reflexivity. Qed.

Example merge_pair_ex :
  merge_partners_grades [(Text "a", Num 8); (Text "b", Num 5); (Text "c", Num 7)]
    (Some [("a", "b"); ("b", "a"); ("c", "d")])
  = Ok [(Text "a", Num 5); (Text "b", Num 5); (Text "c", Num 7); (Text "d", Num 7)].
Proof. vm_compute. reflexivity. Qed.

Example canvas_text_ex :
  canvas_text one_decimal one_decimal [(Text "student1", Num 3); (Text "student2", Num (5 # 2))] "Project 4" "5"
  = ",Project 4" +:+ LF +:+ "Points Possible,5" +:+ LF
    +:+ "student1,3.0" +:+ LF +:+ "student2,2.5" +:+ LF.
Proof. vm_compute. reflexivity. Qed.

(** ** [lower] and [strip] *)

Lemma lower_char_idem c : lower_char (lower_char c) = lower_char c.
Proof. by destruct c as [[] [] [] [] [] [] [] []]. Qed.

Lemma lower_idem s : lower (lower s) = lower s.
Proof. induction s as [|c s IH]; simpl; [done|]. by rewrite lower_char_idem, IH. Qed.

Lemma lower_length s : String.length (lower s) = String.length s.
Proof. induction s as [|c s IH]; simpl; [done|]. by rewrite IH. Qed.

(** A character that is no letter is the lower case of itself only. *)
Lemma lower_char_caseless c :
  is_lower (lower_char c) = false → lower_char c = c.
Proof. by destruct c as [[] [] [] [] [] [] [] []]. Qed.

Lemma lower_char_fixed c : is_upper c = false → lower_char c = c.
Proof. unfold lower_char. by intros ->. Qed.

Lemma WHITESPACE_caseless : Forall (λ w, caseless w = true) WHITESPACE.
Proof. apply (bool_decide_unpack _). by vm_compute. Qed.

Lemma drop_prefix_lower w s :
  caseless w = true → drop_prefix w (lower s) = lower <$> drop_prefix w s.
Proof.
  revert s. induction w as [|a w IH]; intros s Hw; simpl; [done|].
  simpl in Hw. apply andb_true_iff in Hw as [[Ha1 Ha2]%andb_true_iff Hw].
  apply negb_true_iff in Ha1, Ha2.
  destruct s as [|b s]; simpl; [done|].
  destruct (decide (a = b)) as [<-|Hab].
  - rewrite (lower_char_fixed a Ha2). rewrite !bool_decide_eq_true_2 by done. by apply IH.
  - rewrite (bool_decide_eq_false_2 (a = b)) by done.
    rewrite bool_decide_eq_false_2; [done|]. intros ->.
    apply Hab. by apply lower_char_caseless.
Qed.

Lemma take_space_lower s : take_space (lower s) = lower <$> take_space s.
Proof.
  unfold take_space. induction WHITESPACE_caseless as [|w ws Hw _ IH]; simpl; [done|].
  rewrite drop_prefix_lower by done. by destruct (drop_prefix w s).
Qed.

Lemma lower_lstrip s : lower (lstrip s) = lstrip (lower s).
Proof.
  unfold lstrip. rewrite lower_length. generalize (String.length s) as n.
  intros n. revert s. induction n as [|n IH]; intros s; simpl; [done|].
  rewrite take_space_lower. destruct (take_space s); simpl; [apply IH|done].
Qed.

Lemma lower_caseless s t : caseless t = true → lower s = t → s = t.
Proof.
  revert t. induction s as [|c s IH]; intros [|d t]; simpl; try done.
  intros [[Hd1 Hd2]%andb_true_iff Ht]%andb_true_iff [= Hc Hs].
  apply negb_true_iff in Hd1. f_equal; [|by apply IH].
  rewrite <- Hc. symmetry. apply lower_char_caseless. by rewrite Hc.
Qed.

Lemma lower_fixed t : caseless t = true → lower t = t.
Proof.
  induction t as [|d t IH]; simpl; [done|].
  intros [[_ Hd]%andb_true_iff Ht]%andb_true_iff. apply negb_true_iff in Hd.
  by rewrite lower_char_fixed, IH.
Qed.

Lemma is_whitespace_lower s : is_whitespace (lower s) = is_whitespace s.
Proof.
  unfold is_whitespace. apply bool_decide_ext. split; intros Hin.
  - pose proof (proj1 (Forall_forall _ _) WHITESPACE_caseless _ Hin) as Hw.
    by rewrite (lower_caseless s _ Hw eq_refl).
  - pose proof (proj1 (Forall_forall _ _) WHITESPACE_caseless _ Hin) as Hw.
    by rewrite lower_fixed.
Qed.

Lemma lower_rstrip s : lower (rstrip s) = rstrip (lower s).
Proof.
  induction s as [|c s IH]; simpl; [done|].
  rewrite <- IH. change (String (lower_char c) (lower (rstrip s)))
    with (lower (String c (rstrip s))).
  rewrite is_whitespace_lower. by destruct (is_whitespace _).
Qed.

Lemma lower_strip s : lower (strip s) = strip (lower s).
Proof. unfold strip. by rewrite lower_rstrip, lower_lstrip. Qed.

Lemma drop_prefix_length w s rest :
  drop_prefix w s = Some rest → String.length s = (String.length w + String.length rest)%nat.
Proof.
  revert s. induction w as [|a w IH]; intros [|b s]; simpl; try done.
  - by intros [= <-].
  - by intros [= <-].
  - case_bool_decide; [|done]. intros Hd. by rewrite (IH _ Hd).
Qed.

Lemma WHITESPACE_nonempty : Forall (λ w, (0 < String.length w)%nat) WHITESPACE.
Proof. apply (bool_decide_unpack _). by vm_compute. Qed.

Lemma take_space_length s rest :
  take_space s = Some rest → (String.length rest < String.length s)%nat.
Proof.
  unfold take_space. induction WHITESPACE_nonempty as [|w ws Hw _ IH]; simpl; [done|].
  destruct (drop_prefix w s) as [r|] eqn:E; [|done].
  intros [= <-]. apply drop_prefix_length in E. lia.
Qed.

(** What [lstrip] leaves does not start with white space. *)
Lemma lstrip_upto_done n s :
  (String.length s ≤ n)%nat → take_space (lstrip_upto n s) = None.
Proof.
  revert s. induction n as [|n IH]; intros s Hn; simpl.
  - destruct s; [by vm_compute|simpl in Hn; lia].
  - destruct (take_space s) as [rest|] eqn:E; [|done].
    apply IH. apply take_space_length in E. lia.
Qed.

Lemma take_space_lstrip s : take_space (lstrip s) = None.
Proof. by apply lstrip_upto_done. Qed.

Lemma lstrip_fixed s : take_space s = None → lstrip s = s.
Proof. unfold lstrip. destruct (String.length s); simpl; [done|]. by intros ->. Qed.

Lemma lstrip_idem s : lstrip (lstrip s) = lstrip s.
Proof. apply lstrip_fixed, take_space_lstrip. Qed.

Lemma rstrip_idem s : rstrip (rstrip s) = rstrip s.
Proof.
  induction s as [|c s IH]; simpl; [done|].
  destruct (is_whitespace (String c (rstrip s))) eqn:E; [done|].
  simpl. by rewrite IH, E.
Qed.

(** [rstrip] cuts a text at its end. *)
Lemma rstrip_prefix s : ∃ u, s = rstrip s +:+ u.
Proof.
  induction s as [|c s [u IH]]; simpl; [by exists EmptyString|].
  destruct (is_whitespace _).
  - by exists (String c s).
  - exists u. change (String c s = String c (rstrip s +:+ u)). by rewrite <- IH.
Qed.

Lemma drop_prefix_app w s u rest :
  drop_prefix w s = Some rest → drop_prefix w (s +:+ u) = Some (rest +:+ u).
Proof.
  revert s. induction w as [|a w IH]; intros [|b s]; simpl; try done.
  - by intros [= <-].
  - by intros [= <-].
  - change (String b s +:+ u) with (String b (s +:+ u)).
    case_bool_decide; [|done]. apply IH.
Qed.

Lemma take_space_app s u : take_space (s +:+ u) = None → take_space s = None.
Proof.
  unfold take_space. induction WHITESPACE as [|w ws IH]; simpl; [done|].
  destruct (drop_prefix w s) as [rest|] eqn:E.
  - by rewrite (drop_prefix_app _ _ u _ E).
  - destruct (drop_prefix w (s +:+ u)); [done|]. apply IH.
Qed.

Lemma lstrip_rstrip s : take_space s = None → lstrip (rstrip s) = rstrip s.
Proof.
  intros Hs. apply lstrip_fixed. destruct (rstrip_prefix s) as [u Hu].
  apply (take_space_app _ u). by rewrite <- Hu.
Qed.

Lemma strip_idem s : strip (strip s) = strip s.
Proof.
  unfold strip. rewrite lstrip_rstrip by apply take_space_lstrip. apply rstrip_idem.
Qed.







(** What [preprocess] keeps is normalized. *)
Lemma preprocess_normalized s : normalized (strip (lower s)).
Proof.
  split.
  - by rewrite lower_strip, lower_idem.
  - apply strip_idem.
Qed.

(** ** Python dicts *)

Lemma dict_get_set d k v k' :
  dict_get (dict_set d k v) k' = if decide (k' = k) then Some v else dict_get d k'.
Proof.
  induction d as [|[k0 v0] d IH]; simpl.
  - by repeat case_decide.
  - repeat (case_decide; simpl; simplify_eq); try done.
Qed.

Lemma dict_set_keys_fresh d k v : k ∉ d.*1 → dict_set d k v = d ++ [(k, v)].
Proof.
  induction d as [|[k0 v0] d IH]; simpl; [done|].
  intros Hk. apply not_elem_of_cons in Hk as [Hne Hk].
  case_decide; [done|]. by rewrite IH.
Qed.

Lemma dict_set_keys d k v : k ∈ d.*1 → (dict_set d k v).*1 = d.*1.
Proof.
  induction d as [|[k0 v0] d IH]; simpl.
  - by intros ?%elem_of_nil.
  - intros Hk. case_decide; csimpl; [by subst|].
    apply elem_of_cons in Hk as [?|Hk]; [done|]. f_equal. by apply IH.
Qed.

Lemma dict_set_NoDup d k v : NoDup d.*1 → NoDup (dict_set d k v).*1.
Proof.
  intros Hd. destruct (decide (k ∈ d.*1)) as [Hk|Hk].
  - by rewrite dict_set_keys.
  - rewrite dict_set_keys_fresh, fmap_app by done. simpl.
    apply NoDup_app. split_and!; [done| |apply NoDup_singleton].
    intros x Hx ->%list_elem_of_singleton. done.
Qed.

Lemma dict_of_pairs_acc_NoDup (l : list (string * string)) acc :
  NoDup acc.*1 → NoDup (foldl (λ d kv, dict_set d kv.1 kv.2) acc l).*1.
Proof.
  revert acc. induction l as [|[k v] l IH]; intros acc Hacc; simpl; [done|].
  apply IH. by apply dict_set_NoDup.
Qed.

Lemma dict_of_pairs_NoDup l : NoDup (dict_of_pairs l).*1.
Proof. apply dict_of_pairs_acc_NoDup. constructor. Qed.

(** The last pair of a key decides its value. *)
Lemma dict_get_foldl (l : list (string * string)) acc k :
  dict_get (foldl (λ d kv, dict_set d kv.1 kv.2) acc l) k
  = match last (filter (λ kv, kv.1 = k) l) with
    | Some kv => Some kv.2
    | None => dict_get acc k
    end.
Proof.
  revert acc. induction l as [|[k0 v0] l IH]; intros acc; simpl; [done|].
  rewrite IH, dict_get_set, filter_cons. simpl.
  case_decide as Hk; subst.
  - rewrite decide_True by done. rewrite last_cons.
    by destruct (last _).
  - rewrite decide_False by done. done.
Qed.

Lemma dict_get_of_pairs l k :
  dict_get (dict_of_pairs l) k = snd <$> last (filter (λ kv, kv.1 = k) l).
Proof.
  unfold dict_of_pairs. rewrite dict_get_foldl.
  by destruct (last _).
Qed.

Lemma dict_get_None d k : dict_get d k = None ↔ k ∉ d.*1.
Proof.
  induction d as [|[k0 v0] d IH]; simpl.
  - split; [intros _; apply not_elem_of_nil|done].
  - rewrite not_elem_of_cons. case_decide as Hk.
    + split; [done|]. by intros [? _].
    + rewrite IH. split; [by split|by intros [_ ?]].
Qed.

Lemma dict_get_elem_of d k v : NoDup d.*1 → dict_get d k = Some v ↔ (k, v) ∈ d.
Proof.
  induction d as [|[k0 v0] d IH]; simpl; intros Hd.
  - split; [done|by intros ?%elem_of_nil].
  - apply NoDup_cons in Hd as [Hk0 Hd]. rewrite elem_of_cons, <- IH by done.
    apply dict_get_None in Hk0.
    case_decide as Hk; subst.
    + split.
      * intros [= ->]. by left.
      * intros [[= ->]|Hget]; [done|congruence].
    + split; [by right|]. intros [[= -> ->]|Hget]; done.
Qed.

Lemma dict_of_pairs_acc_id (l acc : list (string * string)) :
  NoDup (acc ++ l).*1 → foldl (λ d kv, dict_set d kv.1 kv.2) acc l = acc ++ l.
Proof.
  revert acc. induction l as [|[k v] l IH]; intros acc Hnd; simpl.
  - by rewrite app_nil_r.
  - rewrite dict_set_keys_fresh.
    + rewrite IH; rewrite <- app_assoc; done.
    + rewrite fmap_app in Hnd. apply NoDup_app in Hnd as (_ & Hdis & _).
      intros Hk. apply (Hdis k Hk). simpl. left.
Qed.

Lemma dict_of_pairs_id l : NoDup l.*1 → dict_of_pairs l = l.
Proof. intros Hl. unfold dict_of_pairs. by rewrite dict_of_pairs_acc_id. Qed.

(** ** Partners.__init__ *)

Lemma dict_of_pairs_elem_of l k v : (k, v) ∈ dict_of_pairs l → (k, v) ∈ l.
Proof.
  intros Hin. apply dict_get_elem_of in Hin; [|apply dict_of_pairs_NoDup].
  rewrite dict_get_of_pairs in Hin.
  destruct (last _) as [[k' v']|] eqn:E; simplify_eq/=.
  apply last_Some_elem_of in E. apply list_elem_of_filter in E as [Hk E].
  simpl in Hk. by subst.
Qed.

Lemma filter_keys_NoDup (P : string * string → Prop) `{!∀ x, Decision (P x)} (d : dict) :
  NoDup d.*1 → NoDup (filter P d).*1.
Proof.
  intros Hd. eapply sublist_NoDup; [exact Hd|].
  apply fmap_sublist, sublist_filter.
Qed.

Lemma no_partners_filter d :
  NoDup d.*1 → no_partners d = filter (λ elem, not_reciprocated d elem = true) d.
Proof. intros Hd. unfold no_partners. apply dict_of_pairs_id. by apply filter_keys_NoDup. Qed.

Lemma not_reciprocated_spec d a b :
  not_reciprocated d (a, b) = true ↔ dict_get d b = None ∨ dict_get d b ≠ Some a.
Proof.
  unfold not_reciprocated. simpl. destruct (dict_get d b) as [back|].
  - rewrite negb_true_iff, bool_decide_eq_false. split.
    + intros Hne. right. by intros [= ->].
    + intros [?|Hne]; [done|]. by intros ->.
  - split; [by left|done].
Qed.

Lemma elem_of_no_partners d a b :
  NoDup d.*1 →
  (a, b) ∈ no_partners d ↔
  dict_get d a = Some b ∧ (dict_get d b = None ∨ dict_get d b ≠ Some a).
Proof.
  intros Hd. rewrite no_partners_filter, list_elem_of_filter by done.
  split.
  - intros [Hnr Hin]. split; [by apply dict_get_elem_of|by apply not_reciprocated_spec].
  - intros [Hget Hnr]. split; [by apply not_reciprocated_spec|by apply dict_get_elem_of].
Qed.

Lemma asymmetric_warning_nil d : asymmetric_warning d = [] ↔ no_partners d = [].
Proof. unfold asymmetric_warning. by destruct (no_partners d). Qed.





Lemma preprocess_rows_normalized rows pairs :
  preprocess_rows rows = Ok pairs →
  Forall (λ kv, normalized kv.1 ∧ normalized kv.2) pairs.
Proof.
  revert pairs. induction rows as [|[x y] rows IH]; simpl; intros pairs.
  - intros [= <-]. constructor.
  - destruct x, y; simpl; try done.
    destruct (preprocess_rows rows) as [rest|]; simpl; [|done].
    intros [= <-]. constructor; [|by apply IH].
    split; apply preprocess_normalized.
Qed.


(** ** Grades.__init__ *)

Lemma forallb_Forall {A} (f : A → bool) (l : list A) :
  forallb f l = true ↔ Forall (λ x, f x = true) l.
Proof.
  induction l as [|x l IH]; simpl.
  - split; [constructor|done].
  - rewrite andb_true_iff, Forall_cons, IH. done.
Qed.

Section GradesInit.

Variable to_number : string → option Q.

Lemma infer_column_length fields : length (infer_column to_number fields) = length fields.
Proof. unfold infer_column. repeat destruct (forallb _ _); apply length_map. Qed.

Lemma column_length j rows : length (column j rows) = length rows.
Proof. apply length_map. Qed.


(** When [Grades.__init__] returns, and what it returns then. *)
Lemma Grades_init_Ok lines df :
  Grades_init to_number lines = Ok df ↔
  bom_check lines = Ok tt ∧
  ∃ first rest, parse_rows lines = first :: rest ∧ length first = 2 ∧
    Forall (λ row : list string, (length row ≤ 2)%nat) rest ∧
    df = zip (infer_column to_number (column 0 (first :: rest)))
             (infer_column to_number (column 1 (first :: rest))).
Proof.
  unfold Grades_init, read_csv.
  destruct (bom_check lines) as [[]|e]; simpl; [|split; [done|by intros [? _]]].
  destruct (parse_rows lines) as [|first rest]; simpl.
  { split; [done|]. by intros (_ & ? & ? & ? & _). }
  destruct (forallb _ rest) eqn:Hall; simpl.
  - apply forallb_Forall in Hall.
    destruct (decide (length first = 2)) as [Hlen|Hlen].
    + rewrite Hlen in *. simpl. split.
      * intros [= <-]. split; [done|]. exists first, rest. split_and!; try done.
        eapply Forall_impl; [exact Hall|]. intros row Hrow.
        by apply Nat.leb_le in Hrow.
      * intros (_ & ? & ? & [= <- <-] & _ & _ & ->). done.
    + split; [|by intros (_ & ? & ? & [= <- <-] & ? & _)].
      destruct (length first) as [|[|[|n]]]; simpl; done.
  - split; [done|]. intros (_ & ? & ? & [= <- <-] & Hlen & Hrest & _).
    exfalso. apply not_true_iff_false in Hall. apply Hall. apply forallb_Forall.
    rewrite Hlen. eapply Forall_impl; [exact Hrest|]. intros row Hrow.
    by apply Nat.leb_le.
Qed.

Lemma Grades_init_index lines df :
  Grades_init to_number lines = Ok df →
  index df = infer_column to_number (column 0 (parse_rows lines)) ∧
  df.*2 = infer_column to_number (column 1 (parse_rows lines)).
Proof.
  intros (_ & first & rest & -> & _ & _ & ->)%Grades_init_Ok. unfold index. split.
  - apply fst_zip. by rewrite !infer_column_length, !column_length.
  - apply snd_zip. by rewrite !infer_column_length, !column_length.
Qed.

Lemma index_filter (df : DataFrame) label :
  filter (λ l, l = label) (index df) = index (filter (λ row, row.1 = label) df).
Proof.
  unfold index. induction df as [|[l v] df IH]; [done|].
  csimpl. destruct (decide (l = label)) as [Hl|Hl].
  - rewrite (filter_cons_True (λ l, l = label)) by done.
    rewrite (filter_cons_True (λ row : cell * cell, row.1 = label)) by done.
    csimpl. by rewrite IH.
  - rewrite (filter_cons_False (λ l, l = label)) by done.
    by rewrite (filter_cons_False (λ row : cell * cell, row.1 = label)).
Qed.

Lemma loc_length (df : DataFrame) label :
  length (loc df label) = length (filter (λ l, l = label) (index df)).
Proof. rewrite index_filter. unfold loc, index. by rewrite !length_fmap. Qed.






End GradesInit.






(** ** Reading and writing the frame *)

Lemma index_set_score df label v : index (set_score df label v) = index df.
Proof.
  unfold index, set_score. induction df as [|[l w] df IH]; [done|].
  csimpl. rewrite IH. by case_decide.
Qed.

Lemma loc_cons l w (df : DataFrame) label :
  loc ((l, w) :: df) label = if decide (l = label) then w :: loc df label else loc df label.
Proof.
  unfold loc. case_decide.
  - by rewrite (filter_cons_True (λ row : cell * cell, row.1 = label)).
  - by rewrite (filter_cons_False (λ row : cell * cell, row.1 = label)).
Qed.

Lemma loc_app df ex label : loc (df ++ ex) label = loc df label ++ loc ex label.
Proof. unfold loc. by rewrite filter_app, fmap_app. Qed.

Lemma loc_elem_of df label v : v ∈ loc df label ↔ (label, v) ∈ df.
Proof.
  induction df as [|[l w] df IH].
  - split; intros ?%elem_of_nil; done.
  - rewrite loc_cons, elem_of_cons. case_decide as Hl.
    + rewrite elem_of_cons, IH. subst. split; intros [?|?]; simplify_eq; auto.
    + rewrite IH. split; [auto|]. intros [?|?]; simplify_eq; auto.
Qed.

Lemma loc_absent df label : label ∉ index df → loc df label = [].
Proof.
  intros Hl. destruct (loc df label) as [|v vs] eqn:E; [done|].
  exfalso. apply Hl. assert (v ∈ loc df label) as Hv by (rewrite E; left).
  apply loc_elem_of in Hv. unfold index.
  by apply (list_elem_of_fmap_2 fst _ (label, v)).
Qed.

(** Under labels that are pairwise distinct a read yields one score. *)
Lemma loc_unique df label v :
  NoDup (index df) → (label, v) ∈ df → loc df label = [v].
Proof.
  induction df as [|[l w] df IH]; intros Hnd Hin.
  - by apply elem_of_nil in Hin.
  - unfold index in Hnd. rewrite fmap_cons in Hnd. apply NoDup_cons in Hnd as [Hl Hnd].
    rewrite loc_cons. apply elem_of_cons in Hin as [Heq|Hin].
    + simplify_eq. rewrite decide_True by done. by rewrite loc_absent.
    + case_decide as Hll; [|by apply IH]. subst.
      exfalso. apply Hl. by apply (list_elem_of_fmap_2 fst _ (label, v)).
Qed.

Lemma loc_present df label :
  NoDup (index df) → label ∈ index df → ∃ v, loc df label = [v] ∧ (label, v) ∈ df.
Proof.
  intros Hnd Hin. unfold index in Hin.
  apply list_elem_of_fmap in Hin as ([l v] & -> & Hin). simpl.
  exists v. split; [by apply loc_unique|done].
Qed.

Lemma loc_set_score df label v label' :
  loc (set_score df label v) label'
  = if decide (label' = label) then (λ _, v) <$> loc df label' else loc df label'.
Proof.
  induction df as [|[l w] df IH].
  - simpl. by case_decide.
  - change (set_score ((l, w) :: df) label v)
      with ((if decide (l = label) then (l, v) else (l, w)) :: set_score df label v).
    destruct (decide (l = label)) as [Hl|Hl]; rewrite !loc_cons, IH;
      repeat case_decide; simplify_eq; done.
Qed.

Lemma loc_set_score_eq df label v w :
  loc df label = [w] → loc (set_score df label v) label = [v].
Proof. intros Hw. by rewrite loc_set_score, decide_True, Hw. Qed.

Lemma loc_set_score_ne df label v label' :
  label' ≠ label → loc (set_score df label v) label' = loc df label'.
Proof. intros Hne. by rewrite loc_set_score, decide_False. Qed.

(** The read of a label after the two writes of a turn. *)
Lemma loc_set_both_hit df l1 l2 v label w :
  loc df label = [w] → label = l1 ∨ label = l2 →
  loc (set_score (set_score df l1 v) l2 v) label = [v].
Proof.
  intros Hw Hl. rewrite !loc_set_score.
  repeat case_decide; rewrite ?Hw; try done. by destruct Hl.
Qed.

Lemma loc_set_both_miss df l1 l2 v label :
  label ≠ l1 → label ≠ l2 →
  loc (set_score (set_score df l1 v) l2 v) label = loc df label.
Proof. intros H1 H2. by rewrite !loc_set_score_ne. Qed.

Lemma set_score_numeric df label q :
  Forall (λ row, is_num row.2 = true) df →
  Forall (λ row, is_num row.2 = true) (set_score df label (Num q)).
Proof.
  intros Hdf. unfold set_score. apply Forall_fmap.
  eapply Forall_impl; [exact Hdf|]. intros [l w] Hw; simpl in *. by case_decide.
Qed.

Lemma score_record_num df label v :
  score_record df → (label, v) ∈ df → ∃ q, v = Num q.
Proof.
  intros [_ Hnum] Hin. apply (proj1 (Forall_forall _ _) Hnum) in Hin. simpl in Hin.
  destruct v; try done. by eexists.
Qed.

(** ** Python's [min] on numbers *)

Lemma py_min_Num qs qp : py_min (Num qs) (Num qp) = Ok (Num (Qmin qs qp)).
Proof.
  unfold py_min, py_lt, Qltb. simpl. f_equal.
  unfold Qmin, GenericMinMax.gmin. rewrite <- (Qcompare_antisym qp qs).
  by destruct (Qcompare qp qs).
Qed.

Lemma Qmin_diag q : Qmin q q = q.
Proof.
  unfold Qmin, GenericMinMax.gmin.
  by destruct (Qcompare q q).
Qed.

(** ** The loop of merge_partners_grades *)

(** An invariant indexed by the labels already visited carries over the whole
    loop when every turn returns and keeps it. *)
Lemma foldM_invariant {A B} (f : A → B → result A) (I : list B → A → Prop) l a0 :
  I [] a0 →
  (∀ pre x post a, l = pre ++ x :: post → I pre a →
     ∃ a', f a x = Ok a' ∧ I (pre ++ [x]) a') →
  ∃ a', foldM f a0 l = Ok a' ∧ I l a'.
Proof.
  intros H0 Hstep.
  cut (∀ todo seen a, seen ++ todo = l → I seen a →
         ∃ a', foldM f a todo = Ok a' ∧ I l a').
  { intros Hgen. by apply (Hgen l [] a0). }
  induction todo as [|x todo IH]; intros seen a Hl Ha; simpl.
  - rewrite app_nil_r in Hl. subst. by exists a.
  - destruct (Hstep seen x todo a) as (a' & -> & Ha'); [done..|]. simpl.
    apply (IH (seen ++ [x])); [|done]. by rewrite <- app_assoc.
Qed.

Lemma turn_index p df ex x df' ex' : turn p df ex x df' ex' → index df' = index df.
Proof. destruct 1; [done..|]. by rewrite !index_set_score. Qed.

Lemma turn_numeric p df ex x df' ex' :
  turn p df ex x df' ex' →
  Forall (λ row, is_num row.2 = true) df → Forall (λ row, is_num row.2 = true) df'.
Proof. destruct 1; [done..|]. intros Hdf. by do 2 apply set_score_numeric. Qed.

Lemma turn_score_record p df ex x df' ex' :
  turn p df ex x df' ex' → score_record df → score_record df'.
Proof.
  intros Hturn [Hnd Hnum]. split.
  - by rewrite (turn_index _ _ _ _ _ _ Hturn).
  - by eapply turn_numeric.
Qed.

(** The rows waiting to be appended carry labels that the index lacks. *)
Lemma turn_waiting p df ex x df' ex' :
  turn p df ex x df' ex' →
  Forall (λ row, row.1 ∉ index df) ex → Forall (λ row, row.1 ∉ index df) ex'.
Proof.
  destruct 1; [done| |done]. intros Hex. apply Forall_app. split; [done|].
  by constructor.
Qed.

(** On a score record a turn of the loop returns, and does what [turn]
    says. *)
Lemma merge_step_turn p df ex x :
  score_record df → x ∈ index df →
  ∃ df' ex', merge_step p (df, ex) x = Ok (df', ex') ∧ turn p df ex x df' ex'.
Proof.
  intros Hrec Hx. pose proof Hrec as [Hnd Hnum]. unfold merge_step.
  destruct x as [q|s| | |]; try by (eexists _, _; split; [done|by constructor]).
  destruct (dict_get p s) as [partner|] eqn:Hp;
    [|eexists _, _; split; [done|]; constructor; by intros ? [= <-]].
  destruct (loc_present df (Text s) Hnd Hx) as (v & Hv & Hin).
  unfold loc_score. rewrite Hv. simpl. case_decide as Hpartner.
  - destruct (loc_present df (Text partner) Hnd Hpartner) as (w & Hw & Hinw).
    rewrite Hw. simpl.
    destruct (score_record_num _ _ _ Hrec Hin) as [qs ->].
    destruct (score_record_num _ _ _ Hrec Hinw) as [qp ->].
    rewrite py_min_Num. simpl. eexists _, _. split; [done|].
    by eapply turn_both.
  - eexists _, _. split; [done|]. by eapply turn_absent.
Qed.

(** The loop over a score record: it returns, the frame stays a score record
    over the same labels, the waiting rows are for labels the index lacks,
    and an invariant that every turn keeps holds at the end. *)
Lemma merge_loop p df0 (I : list cell → DataFrame → DataFrame → Prop) :
  score_record df0 →
  I [] df0 [] →
  (∀ pre x post df ex df' ex',
     index df0 = pre ++ x :: post → index df = index df0 → score_record df →
     I pre df ex → turn p df ex x df' ex' → I (pre ++ [x]) df' ex') →
  ∃ df' ex', foldM (merge_step p) (df0, []) (index df0) = Ok (df', ex') ∧
    score_record df' ∧ index df' = index df0 ∧
    Forall (λ row, row.1 ∉ index df0) ex' ∧ I (index df0) df' ex'.
Proof.
  intros Hrec H0 Hstep.
  destruct (foldM_invariant (merge_step p)
    (λ pre st, index st.1 = index df0 ∧ score_record st.1 ∧
               Forall (λ row, row.1 ∉ index df0) st.2 ∧ I pre st.1 st.2)
    (index df0) (df0, [])) as ([df' ex'] & Hfold & Hidx & Hrec' & Hex & HI).
  - simpl. split_and!; try done.
  - intros pre x post [df ex] Hsplit (Hidx & Hrec1 & Hex & HI). simpl in *.
    destruct (merge_step_turn p df ex x Hrec1) as (df' & ex' & Hok & Hturn).
    { rewrite Hidx, Hsplit. apply elem_of_app. right. left. }
    exists (df', ex'). split; [done|]. simpl. split_and!.
    + by rewrite (turn_index _ _ _ _ _ _ Hturn).
    + by eapply turn_score_record.
    + rewrite <- Hidx in *. by eapply turn_waiting.
    + by eapply Hstep.
  - by exists df', ex'.
Qed.

(** With a partner relation that has an entry the function is the loop
    followed by the append. *)
Lemma merge_partners_grades_loop df p df' ex' :
  p ≠ [] →
  foldM (merge_step p) (df, []) (index df) = Ok (df', ex') →
  merge_partners_grades df (Some p) = Ok (df' ++ ex').
Proof.
  intros Hp Hfold. unfold merge_partners_grades.
  destruct p; [done|]. by rewrite Hfold.
Qed.

Lemma dict_get_nonempty (p : dict) k v : dict_get p k = Some v → p ≠ [].
Proof. by destruct p. Qed.

(** A score record always merges. *)
Lemma merge_partners_grades_total df partners :
  score_record df → ∃ df', merge_partners_grades df partners = Ok df'.
Proof.
  intros Hrec. destruct partners as [[|kv p]|]; [by eexists| |by eexists].
  destruct (merge_loop (kv :: p) df (λ _ _ _, True) Hrec) as (df' & ex' & Hfold & _); [done..|].
  exists (df' ++ ex'). by apply merge_partners_grades_loop.
Qed.

(** ** What merge_partners_grades returns *)

Lemma waiting_loc (ex : DataFrame) (idx : list cell) label :
  Forall (λ row, row.1 ∉ idx) ex → label ∈ idx → loc ex label = [].
Proof.
  intros Hex Hl. apply loc_absent. unfold index.
  intros ([l v] & -> & Hin)%list_elem_of_fmap.
  by apply (proj1 (Forall_forall _ _) Hex) in Hin.
Qed.

Lemma elem_of_index (df : DataFrame) label v : (label, v) ∈ df → label ∈ index df.
Proof. intros Hin. by apply (list_elem_of_fmap_2 fst _ (label, v)). Qed.

Lemma not_elem_of_snoc {A} (l : list A) x y : y ∉ l → y ≠ x → y ∉ l ++ [x].
Proof.
  intros Hl Hx Hin. apply elem_of_app in Hin as [Hin|Hin]; [done|].
  by apply list_elem_of_singleton in Hin.
Qed.

Lemma elem_of_snoc_ne {A} (l : list A) x y : y ∈ l ++ [x] → y ≠ x → y ∈ l.
Proof.
  intros Hin Hx. apply elem_of_app in Hin as [Hin|Hin]; [done|].
  by apply list_elem_of_singleton in Hin.
Qed.

Lemma elem_of_snoc {A} (l : list A) x : x ∈ l ++ [x].
Proof. apply elem_of_app. right. left. Qed.

Lemma lookup_snoc_old {A} (l : list A) x i y : l !! i = Some y → (l ++ [x]) !! i = Some y.
Proof. apply lookup_app_l_Some. Qed.

Lemma lookup_snoc_new {A} (l : list A) x : (l ++ [x]) !! length l = Some x.
Proof. by rewrite list_lookup_middle. Qed.

(** C3: with no partner relation, absent or empty, merge_partners_grades
    gives the score record back as it is. *)
Theorem merge_without_partners (df : DataFrame) :
  merge_partners_grades df None = Ok df ∧ merge_partners_grades df (Some []) = Ok df.
Proof. unfold merge_partners_grades. by split. Qed.

(** C1 (amended): on a score record, unique student keys and numeric scores,
    the two members of a reciprocal pair that are both in the record end with
    the minimum of their two original scores, provided no other student of the
    record declares one of them as partner. *)
Theorem merge_reciprocal_pair_min (df : DataFrame) (p : dict) (a b : string) (qa qb : Q) :
  score_record df →
  dict_get p a = Some b → dict_get p b = Some a →
  (Text a, Num qa) ∈ df → (Text b, Num qb) ∈ df →
  (∀ c, Text c ∈ index df → c ≠ a → c ≠ b →
        dict_get p c ≠ Some a ∧ dict_get p c ≠ Some b) →
  ∃ merged m, merge_partners_grades df (Some p) = Ok merged ∧
    loc merged (Text a) = [Num m] ∧ loc merged (Text b) = [Num m] ∧
    (m == Qmin qa qb)%Q.
Proof.
  intros Hrec Hab Hba Ha Hb Hothers. pose proof Hrec as [Hnd _].
  pose proof (elem_of_index _ _ _ Ha) as Hia.
  pose proof (elem_of_index _ _ _ Hb) as Hib.
  destruct (merge_loop p df (λ pre d _,
      ((Text a ∉ pre) ∧ (Text b ∉ pre) ∧
       loc d (Text a) = [Num qa] ∧ loc d (Text b) = [Num qb])
      ∨ (∃ m, loc d (Text a) = [Num m] ∧ loc d (Text b) = [Num m] ∧ (m == Qmin qa qb)%Q))
    Hrec) as (df' & ex' & Hfold & _ & _ & Hex & HI).
  - left. split_and!; [apply not_elem_of_nil..|by apply loc_unique|by apply loc_unique].
  - intros pre x post d ex d' ex' Hsplit Hidx Hrec' HI Hturn.
    assert (x ∈ index df) as Hx by (rewrite Hsplit; apply elem_of_app; right; left).
    destruct Hturn as [Hnone|s partner v -> Hs Hpartner Hv|s partner qs qp -> Hs Hpartner Hqs Hqp].
    + destruct HI as [(Hna & Hnb & La & Lb)|HI]; [left|by right].
      split_and!; try done; apply not_elem_of_snoc; try done.
      * intros <-. specialize (Hnone a eq_refl). congruence.
      * intros <-. specialize (Hnone b eq_refl). congruence.
    + rewrite Hidx in Hpartner.
      assert (s ≠ a) by (intros ->; congruence).
      assert (s ≠ b) by (intros ->; congruence).
      destruct HI as [(Hna & Hnb & La & Lb)|HI]; [left|by right].
      split_and!; try done; apply not_elem_of_snoc; congruence.
    + destruct (decide (s = a)) as [->|Hsa]; [|destruct (decide (s = b)) as [->|Hsb]].
      * assert (partner = b) as -> by congruence. right.
        destruct HI as [(_ & _ & La & Lb)|(m & La & Lb & Hm)].
        -- assert (qs = qa) as -> by congruence. assert (qp = qb) as -> by congruence.
           exists (Qmin qa qb). split_and!; [| |done];
             (eapply loc_set_both_hit; [eassumption|auto]).
        -- assert (qs = m) as -> by congruence. assert (qp = m) as -> by congruence.
           exists m. rewrite Qmin_diag. split_and!; [| |done];
             (eapply loc_set_both_hit; [eassumption|auto]).
      * assert (partner = a) as -> by congruence. right.
        destruct HI as [(_ & _ & La & Lb)|(m & La & Lb & Hm)].
        -- assert (qs = qb) as -> by congruence. assert (qp = qa) as -> by congruence.
           exists (Qmin qb qa). split_and!; [| |apply Q.min_comm];
             (eapply loc_set_both_hit; [eassumption|auto]).
        -- assert (qs = m) as -> by congruence. assert (qp = m) as -> by congruence.
           exists m. rewrite Qmin_diag. split_and!; [| |done];
             (eapply loc_set_both_hit; [eassumption|auto]).
      * destruct (Hothers s Hx Hsa Hsb) as [Hpa Hpb].
        assert (partner ≠ a) by congruence. assert (partner ≠ b) by congruence.
        rewrite !loc_set_both_miss by congruence.
        destruct HI as [(Hna & Hnb & La & Lb)|HI]; [left|by right].
        split_and!; try done; apply not_elem_of_snoc; congruence.
  - destruct HI as [(Hna & _)|(m & La & Lb & Hm)]; [done|].
    exists (df' ++ ex'), m. split_and!; [|..|done].
    + apply merge_partners_grades_loop; [by eapply dict_get_nonempty|done].
    + by rewrite loc_app, La, (waiting_loc _ _ _ Hex Hia).
    + by rewrite loc_app, Lb, (waiting_loc _ _ _ Hex Hib).
Qed.

(** C2 (amended): on a score record, a student a whose declared partner b is
    not in the record gives b a row in the merged record.  Provided no student
    of the record declares a as partner, that row carries the score of a, no
    minimum taken, and a keeps that score. *)
Theorem merge_absent_partner_takes_score (df : DataFrame) (p : dict) (a b : string) (v : cell) :
  score_record df →
  dict_get p a = Some b → (Text a, v) ∈ df → Text b ∉ index df →
  ∃ merged w, merge_partners_grades df (Some p) = Ok merged ∧
    (Text b, w) ∈ merged ∧
    ((∀ c, Text c ∈ index df → dict_get p c ≠ Some a) →
       w = v ∧ loc merged (Text a) = [v]).
Proof.
  intros Hrec Hab Ha Hb. pose proof Hrec as [Hnd _].
  pose proof (elem_of_index _ _ _ Ha) as Hia.
  set (alone := ∀ c, Text c ∈ index df → dict_get p c ≠ Some a).
  destruct (merge_loop p df (λ pre d ex,
      (alone → loc d (Text a) = [v]) ∧
      (Text a ∈ pre → ∃ w, (Text b, w) ∈ ex ∧ (alone → w = v)))
    Hrec) as (df' & ex' & Hfold & _ & _ & Hex & La & Hin).
  - split; [intros _; by apply loc_unique|]. by intros ?%elem_of_nil.
  - intros pre x post d ex d' ex' Hsplit Hidx Hrec' [La Hin] Hturn.
    assert (x ∈ index df) as Hx by (rewrite Hsplit; apply elem_of_app; right; left).
    destruct Hturn as [Hnone|s partner w -> Hs Hpartner Hw|s partner qs qp -> Hs Hpartner Hqs Hqp].
    + split; [done|]. intros Hpre. apply Hin. eapply elem_of_snoc_ne; [done|].
      intros <-. specialize (Hnone a eq_refl). congruence.
    + split; [done|]. intros Hpre.
      destruct (decide (s = a)) as [->|Hsa].
      * assert (partner = b) as -> by congruence. exists w. split.
        -- apply elem_of_app. right. left.
        -- intros Halone. specialize (La Halone). congruence.
      * destruct Hin as (w' & Hw' & Hv); [eapply elem_of_snoc_ne; [done|congruence]|].
        exists w'. split; [|done]. apply elem_of_app. by left.
    + rewrite Hidx in Hpartner.
      assert (s ≠ a) by (intros ->; congruence). split.
      * intros Halone.
        assert (partner ≠ a) by (intros ->; by apply (Halone s)).
        rewrite loc_set_both_miss by congruence. by apply La.
      * intros Hpre. apply Hin. eapply elem_of_snoc_ne; [done|congruence].
  - destruct (Hin Hia) as (w & Hw & Hv).
    exists (df' ++ ex'), w. split_and!.
    + apply merge_partners_grades_loop; [by eapply dict_get_nonempty|done].
    + apply elem_of_app. by right.
    + intros Halone. split; [by apply Hv|].
      by rewrite loc_app, (La Halone), (waiting_loc _ _ _ Hex Hia).
Qed.

(** C10 (amended): on a score record, when two distinct students a1 and a2
    of the record declare the same partner b and b is not in the record, the
    merged record holds two rows for b, one from the turn of each, and the
    written file holds the two lines.  The row from a1 carries the score of
    a1, and a1 keeps it, provided no student of the record declares a1 as
    partner; the same holds for a2. *)
Theorem merge_shared_absent_partner_twice (label_repr float_repr : Q → string)
    (df : DataFrame) (p : dict) (a1 a2 b : string) (v1 v2 : cell)
    (assignment_name points_possible : string) :
  score_record df → a1 ≠ a2 →
  (Text a1, v1) ∈ df → (Text a2, v2) ∈ df →
  dict_get p a1 = Some b → dict_get p a2 = Some b → Text b ∉ index df →
  ∃ merged i j w1 w2, merge_partners_grades df (Some p) = Ok merged ∧ i ≠ j ∧
    merged !! i = Some (Text b, w1) ∧ merged !! j = Some (Text b, w2) ∧
    ((∀ c, Text c ∈ index df → dict_get p c ≠ Some a1) →
       w1 = v1 ∧ loc merged (Text a1) = [v1]) ∧
    ((∀ c, Text c ∈ index df → dict_get p c ≠ Some a2) →
       w2 = v2 ∧ loc merged (Text a2) = [v2]) ∧
    ∃ lines,
      canvas_text label_repr float_repr merged assignment_name points_possible
      = ("," +:+ assignment_name +:+ LF) +:+ ("Points Possible," +:+ points_possible +:+ LF)
          +:+ foldr String.append EmptyString lines
      ∧ length lines = length merged
      ∧ lines !! i = Some (csv_line label_repr float_repr (Text b, w1))
      ∧ lines !! j = Some (csv_line label_repr float_repr (Text b, w2)).
Proof.
  intros Hrec Hne H1 H2 Hp1 Hp2 Hb. pose proof Hrec as [Hnd _].
  pose proof (elem_of_index _ _ _ H1) as Hi1.
  pose proof (elem_of_index _ _ _ H2) as Hi2.
  set (alone1 := ∀ c, Text c ∈ index df → dict_get p c ≠ Some a1).
  set (alone2 := ∀ c, Text c ∈ index df → dict_get p c ≠ Some a2).
  destruct (merge_loop p df (λ pre d ex,
      (alone1 → loc d (Text a1) = [v1]) ∧ (alone2 → loc d (Text a2) = [v2]) ∧
      (Text a1 ∈ pre → ∃ i w1, ex !! i = Some (Text b, w1) ∧ (alone1 → w1 = v1)) ∧
      (Text a2 ∈ pre → ∃ j w2, ex !! j = Some (Text b, w2) ∧ (alone2 → w2 = v2)) ∧
      (Text a1 ∈ pre → Text a2 ∈ pre →
         ∃ i j w1 w2, i ≠ j ∧ ex !! i = Some (Text b, w1) ∧ ex !! j = Some (Text b, w2) ∧
           (alone1 → w1 = v1) ∧ (alone2 → w2 = v2)))
    Hrec) as (df' & ex' & Hfold & _ & Hidx' & Hex & L1 & L2 & _ & _ & Hboth).
  - split_and!; [intros _; by apply loc_unique..| | |]; by intros ?%elem_of_nil.
  - intros pre x post d ex d' ex' Hsplit Hidx Hrec' (L1 & L2 & E1 & E2 & E12) Hturn.
    assert (x ∈ index df) as Hx by (rewrite Hsplit; apply elem_of_app; right; left).
    destruct Hturn as [Hnone|s partner w -> Hs Hpartner Hw|s partner qs qp -> Hs Hpartner Hqs Hqp].
    + assert (Text a1 ≠ x) by (intros <-; specialize (Hnone a1 eq_refl); congruence).
      assert (Text a2 ≠ x) by (intros <-; specialize (Hnone a2 eq_refl); congruence).
      split_and!; [done..| | |].
      * intros Hpre. apply E1. by eapply elem_of_snoc_ne.
      * intros Hpre. apply E2. by eapply elem_of_snoc_ne.
      * intros Hpre1 Hpre2. apply E12; by eapply elem_of_snoc_ne.
    + destruct (decide (s = a1)) as [->|Hs1]; [|destruct (decide (s = a2)) as [->|Hs2]].
      * assert (partner = b) as -> by congruence.
        assert (alone1 → w = v1) as Hw1 by (intros Halone; specialize (L1 Halone); congruence).
        split_and!; [done..| | |].
        -- intros _. exists (length ex), w. split; [apply lookup_snoc_new|done].
        -- intros Hpre.
           destruct E2 as (j & w2 & Hj & Hv2); [eapply elem_of_snoc_ne; [done|congruence]|].
           exists j, w2. split; [by apply lookup_snoc_old|done].
        -- intros _ Hpre.
           destruct E2 as (j & w2 & Hj & Hv2); [eapply elem_of_snoc_ne; [done|congruence]|].
           exists (length ex), j, w, w2. split_and!;
             [|apply lookup_snoc_new|by apply lookup_snoc_old|done..].
           apply lookup_lt_Some in Hj. lia.
      * assert (partner = b) as -> by congruence.
        assert (alone2 → w = v2) as Hw2 by (intros Halone; specialize (L2 Halone); congruence).
        split_and!; [done..| | |].
        -- intros Hpre.
           destruct E1 as (i & w1 & Hi & Hv1); [eapply elem_of_snoc_ne; [done|congruence]|].
           exists i, w1. split; [by apply lookup_snoc_old|done].
        -- intros _. exists (length ex), w. split; [apply lookup_snoc_new|done].
        -- intros Hpre _.
           destruct E1 as (i & w1 & Hi & Hv1); [eapply elem_of_snoc_ne; [done|congruence]|].
           exists i, (length ex), w1, w. split_and!;
             [|by apply lookup_snoc_old|apply lookup_snoc_new|done..].
           apply lookup_lt_Some in Hi. lia.
      * split_and!; [done..| | |].
        -- intros Hpre.
           destruct E1 as (i & w1 & Hi & Hv1); [eapply elem_of_snoc_ne; [done|congruence]|].
           exists i, w1. split; [by apply lookup_snoc_old|done].
        -- intros Hpre.
           destruct E2 as (j & w2 & Hj & Hv2); [eapply elem_of_snoc_ne; [done|congruence]|].
           exists j, w2. split; [by apply lookup_snoc_old|done].
        -- intros Hpre1 Hpre2.
           destruct E12 as (i & j & w1 & w2 & Hij & Hi & Hj & Hv1 & Hv2);
             [eapply elem_of_snoc_ne; [done|congruence]..|].
           exists i, j, w1, w2. split_and!; [done|by apply lookup_snoc_old..|done|done].
    + rewrite Hidx in Hpartner.
      assert (s ≠ a1) by (intros ->; congruence).
      assert (s ≠ a2) by (intros ->; congruence).
      split_and!.
      * intros Halone. assert (partner ≠ a1) by (intros ->; by apply (Halone s)).
        rewrite loc_set_both_miss by congruence. by apply L1.
      * intros Halone. assert (partner ≠ a2) by (intros ->; by apply (Halone s)).
        rewrite loc_set_both_miss by congruence. by apply L2.
      * intros Hpre. apply E1. eapply elem_of_snoc_ne; [done|congruence].
      * intros Hpre. apply E2. eapply elem_of_snoc_ne; [done|congruence].
      * intros Hpre1 Hpre2. apply E12; (eapply elem_of_snoc_ne; [done|congruence]).
  - destruct (Hboth Hi1 Hi2) as (i & j & w1 & w2 & Hij & Hi & Hj & Hv1 & Hv2).
    exists (df' ++ ex'), (length df' + i), (length df' + j), w1, w2. split_and!.
    + apply merge_partners_grades_loop; [by eapply dict_get_nonempty|done].
    + lia.
    + by rewrite lookup_app_r, Nat.add_comm, Nat.add_sub by lia.
    + by rewrite lookup_app_r, Nat.add_comm, Nat.add_sub by lia.
    + intros Halone. split; [by apply Hv1|].
      by rewrite loc_app, (L1 Halone), (waiting_loc _ _ _ Hex Hi1).
    + intros Halone. split; [by apply Hv2|].
      by rewrite loc_app, (L2 Halone), (waiting_loc _ _ _ Hex Hi2).
    + exists (map (csv_line label_repr float_repr) (df' ++ ex')). split_and!.
      * done.
      * apply length_map.
      * rewrite list_lookup_fmap, lookup_app_r, Nat.add_comm, Nat.add_sub by lia.
        by rewrite Hi.
      * rewrite list_lookup_fmap, lookup_app_r, Nat.add_comm, Nat.add_sub by lia.
        by rewrite Hj.
Qed.

(** ** The merge on concrete records *)

Ltac index_cases H :=
  repeat (apply elem_of_cons in H as [H|H]; [simplify_eq|]);
  try (by apply elem_of_nil in H).

Ltac small_score_record :=
  split; [apply (bool_decide_unpack _); by vm_compute|by repeat constructor].

(** C1, counterexample: a and b name each other, c names a.  The turn of c
    lowers a after the pair was settled: a ends at 1, b at 5, and neither at
    the same score as the other. *)
Lemma merge_third_student_breaks_pair :
  let df := [(Text "a", Num 8); (Text "b", Num 5); (Text "c", Num 1)] in
  let p := [("a", "b"); ("b", "a"); ("c", "a")] in
  score_record df
  ∧ dict_get p "a" = Some "b" ∧ dict_get p "b" = Some "a"
  ∧ merge_partners_grades df (Some p)
    = Ok [(Text "a", Num 1); (Text "b", Num 5); (Text "c", Num 1)]
  ∧ ¬ (1 == Qmin 8 5)%Q.
Proof.
  split_and!; [small_score_record|done|done|by vm_compute|].
  intros H. vm_compute in H. discriminate.
Qed.

(** C1, witness: the pair of the specification, 8.0 and 5.0. *)
Lemma merge_reciprocal_pair_min_8_5 :
  ∃ merged m,
    merge_partners_grades [(Text "a", Num 8); (Text "b", Num 5)] (Some [("a", "b"); ("b", "a")])
    = Ok merged ∧
    loc merged (Text "a") = [Num m] ∧ loc merged (Text "b") = [Num m] ∧
    (m == Qmin 8 5)%Q.
Proof.
  apply (merge_reciprocal_pair_min _ _ "a" "b" 8 5).
  - small_score_record.
  - done.
  - done.
  - left.
  - right. left.
  - intros c Hc Ha Hb. simpl in Hc. index_cases Hc.
Defined.

(** C2, counterexample: a names the absent b, and c names a.  The turn of c
    lowers a after b took the 7 of a. *)
Lemma merge_third_student_changes_submitter :
  let df := [(Text "a", Num 7); (Text "c", Num 3)] in
  let p := [("a", "b"); ("c", "a")] in
  score_record df ∧ (Text "b" ∉ index df) ∧ dict_get p "a" = Some "b"
  ∧ loc df (Text "a") = [Num 7]
  ∧ ∃ merged, merge_partners_grades df (Some p) = Ok merged
      ∧ loc merged (Text "a") = [Num 3] ∧ loc merged (Text "b") = [Num 7].
Proof.
  split_and!; [small_score_record| |done|done|eexists; by vm_compute].
  intros H. simpl in H. index_cases H.
Qed.

(** C2, witness: only a submitted, with 7.0. *)
Lemma merge_absent_partner_takes_score_7 :
  ∃ merged w,
    merge_partners_grades [(Text "a", Num 7)] (Some [("a", "b"); ("b", "a")]) = Ok merged ∧
    (Text "b", w) ∈ merged ∧
    ((∀ c, Text c ∈ index [(Text "a", Num 7)] →
           dict_get [("a", "b"); ("b", "a")] c ≠ Some "a") →
       w = Num 7 ∧ loc merged (Text "a") = [Num 7]).
Proof.
  apply (merge_absent_partner_takes_score _ _ "a" "b").
  - small_score_record.
  - done.
  - left.
  - intros H. simpl in H. index_cases H.
Defined.

(** C10, counterexample: a1 and a2 name the absent b, c and c2 name a1.  The
    row that a1 gives to b carries 1, the score a1 held between the turns of
    c and c2: neither the 8 a1 came with nor the 0 a1 ends with. *)
Lemma merge_shared_partner_row_of_neither_score :
  let df := [(Text "c", Num 1); (Text "a1", Num 8); (Text "a2", Num 6); (Text "c2", Num 0)] in
  let p := [("c", "a1"); ("a1", "b"); ("a2", "b"); ("c2", "a1")] in
  score_record df ∧ (Text "b" ∉ index df)
  ∧ loc df (Text "a1") = [Num 8]
  ∧ ∃ merged, merge_partners_grades df (Some p) = Ok merged
      ∧ loc merged (Text "a1") = [Num 0]
      ∧ loc merged (Text "b") = [Num 1; Num 6].
Proof.
  split_and!; [small_score_record| |done|eexists; by vm_compute].
  intros H. simpl in H. index_cases H.
Qed.

(** C10, witness: two students, 8.0 and 6.0, with the same absent partner. *)
Lemma merge_shared_absent_partner_twice_8_6 :
  let df := [(Text "a1", Num 8); (Text "a2", Num 6)] in
  let p := [("a1", "b"); ("a2", "b")] in
  ∃ merged i j w1 w2,
    merge_partners_grades df (Some p) = Ok merged ∧ i ≠ j ∧
    merged !! i = Some (Text "b", w1) ∧ merged !! j = Some (Text "b", w2) ∧
    ((∀ c, Text c ∈ index df → dict_get p c ≠ Some "a1") →
       w1 = Num 8 ∧ loc merged (Text "a1") = [Num 8]) ∧
    ((∀ c, Text c ∈ index df → dict_get p c ≠ Some "a2") →
       w2 = Num 6 ∧ loc merged (Text "a2") = [Num 6]) ∧
    ∃ lines,
      canvas_text one_decimal one_decimal merged "Project 4" "10"
      = ("," +:+ "Project 4" +:+ LF) +:+ ("Points Possible," +:+ "10" +:+ LF)
          +:+ foldr String.append EmptyString lines
      ∧ length lines = length merged
      ∧ lines !! i = Some (csv_line one_decimal one_decimal (Text "b", w1))
      ∧ lines !! j = Some (csv_line one_decimal one_decimal (Text "b", w2)).
Proof.
  intros df p.
  apply (merge_shared_absent_partner_twice one_decimal one_decimal df p "a1" "a2" "b").
  - small_score_record.
  - done.
  - left.
  - right. left.
  - done.
  - done.
  - intros H. simpl in H. index_cases H.
Defined.

(** ** The written file *)

Lemma append_nil (t : string) : EmptyString +:+ t = t.
Proof. reflexivity. Qed.

Lemma append_cons c (s t : string) : String c s +:+ t = String c (s +:+ t).
Proof. reflexivity. Qed.

Lemma append_assoc (s1 s2 s3 : string) : (s1 +:+ s2) +:+ s3 = s1 +:+ (s2 +:+ s3).
Proof.
  induction s1 as [|c s1 IH]; [done|]. by rewrite !append_cons, IH.
Qed.




Lemma csv_field_plain s : has_special s = false → csv_field s = s.
Proof. unfold csv_field. by intros ->. Qed.

Lemma append_empty_r (s : string) : s +:+ EmptyString = s.
Proof. induction s as [|c s IH]; [done|]. by rewrite append_cons, IH. Qed.

Lemma world_eta w : World (files w) (trace w) (refuses w) = w.
Proof. by destruct w. Qed.

(** The writes, when none is refused: the texts go after what the file
    holds, in their order. *)
Lemma write_all_run path texts old w :
  (∀ op, refuses w path op = None) → files w !! path = Some old →
  write_all path texts w
  = (Return tt,
     World (<[path := old +:+ foldr String.append EmptyString texts]> (files w))
           (trace w) (refuses w)).
Proof.
  intros Hfree. revert old w Hfree.
  induction texts as [|text texts IH]; intros old w Hfree Hold; simpl.
  - unfold pure. by rewrite append_empty_r, insert_id, world_eta.
  - unfold proc_bind, write. rewrite Hfree, Hold. simpl.
    rewrite (IH (old +:+ text)); simpl; [|done|by rewrite lookup_insert_eq].
    by rewrite insert_insert_eq, append_assoc.
Qed.

Section Written.

Variable label_repr : Q → string.
Variable float_repr : Q → string.

(** What [CanvasWriter.write] does when nothing is refused. *)
Lemma CanvasWriter_write_run (output_file : string) (df : DataFrame)
    (assignment_name points_possible : string) (w : world) :
  (∀ op, refuses w output_file op = None) →
  CanvasWriter_write label_repr float_repr output_file df assignment_name points_possible w
  = (Return tt,
     World (<[output_file :=
                canvas_text label_repr float_repr df assignment_name points_possible]>
              (files w))
           (trace w ++ [OpenOutput output_file]) (refuses w)).
Proof.
  intros Hfree.
  change (CanvasWriter_write label_repr float_repr output_file df assignment_name
            points_possible)
    with (open_w output_file ;;
          write_all output_file
            (("," +:+ assignment_name +:+ LF)
               :: ("Points Possible," +:+ points_possible +:+ LF)
               :: map (csv_line label_repr float_repr) df)).
  unfold proc_bind, open_w. rewrite Hfree.
  rewrite (write_all_run output_file _ EmptyString);
    [|done|by apply lookup_insert_eq].
  unfold canvas_text, to_csv. cbn [foldr files trace refuses].
  by rewrite insert_insert_eq, append_nil, !append_assoc.
Qed.


End Written.


(** ** The configuration and the process *)

Lemma verify_config_error (config : dict) (w : world) :
  config_error (files w) config →
  ∃ line, _verify_config config w = (Exit 1, World (files w) (trace w ++ [Stdout line]) (refuses w)).
Proof.
  intros Herr. unfold _verify_config, proc_bind, has_key, getitem, isfile, print, log, exit, pure.
  destruct (dict_get config Config.POINTS_POSSIBLE) as [points|] eqn:E1; simpl; [|by eexists].
  destruct (dict_get config Config.ASSIGNMENT_NAME) as [name|] eqn:E2; simpl; [|by eexists].
  destruct (dict_get config Config.GRADES) as [grades|] eqn:E3; simpl; [|by eexists].
  destruct (dict_get config Config.OUTPUT_FILE) as [out|] eqn:E4; simpl; [|by eexists].
  destruct (files w !! grades) as [gtext|] eqn:E5; simpl; [|by eexists].
  destruct (dict_get config Config.PARTNERS) as [partners|] eqn:E6; simpl.
  - destruct (files w !! partners) as [ptext|] eqn:E7; simpl; [|by eexists].
    exfalso. destruct Herr as [?|[?|[?|[?|[(? & ? & ?)|(? & ? & ?)]]]]]; congruence.
  - exfalso. destruct Herr as [?|[?|[?|[?|[(? & ? & ?)|(? & ? & ?)]]]]]; congruence.
Qed.

Section Process.

Variable to_number : string → option Q.
Variable label_repr : Q → string.
Variable float_repr : Q → string.
Variable json_load : string → option dict.
Variable read_pairing : string → result (list (cell * cell)).

(** C9: when the configuration lacks a required key, or its grades path or
    its partners path is not the path of a file, main ends by exit(1).  It
    has then opened the configuration file and printed one line, and nothing
    else: no grades file and no partners file was opened, no output file was
    opened or written, and the files are as they were. *)
Theorem main_exits_on_config_error (config_path js : string) (config : dict) (w : world) :
  files w !! config_path = Some js →
  json_load js = Some config →
  config_error (files w) config →
  ∃ line w',
    main to_number label_repr float_repr json_load read_pairing config_path w = (Exit 1, w') ∧
    exit_code (Exit 1 : outcome unit) ≠ 0%Z ∧
    files w' = files w ∧
    trace w' = trace w ++ [OpenConfig config_path; Stdout line].
Proof.
  intros Hfile Hjson Herr.
  destruct (verify_config_error config
              (World (files w) (trace w ++ [OpenConfig config_path]) (refuses w)) Herr) as [line Hverify].
  exists line, (World (files w) (trace w ++ [OpenConfig config_path; Stdout line]) (refuses w)).
  split_and!; [|done..].
  unfold main, Config_init, proc_bind at 1 2 3, isfile, read_file.
  rewrite Hfile. simpl. rewrite Hfile, Hjson.
  unfold proc_bind at 1. rewrite Hverify. simpl.
  by rewrite <- app_assoc.
Qed.

End Process.

(** C9, witness: a configuration without the key "points". *)
Lemma main_exits_without_points :
  let w := World {[ "c.json" := "CFG" ]} [] (λ _ _, None) in
  let json_load := λ js : string,
    if bool_decide (js = "CFG") then Some [("assignment", "Project 4")] else None in
  ∃ line w',
    main decimal one_decimal one_decimal json_load (λ _, Ok []) "c.json" w = (Exit 1, w') ∧
    exit_code (Exit 1 : outcome unit) ≠ 0%Z ∧
    files w' = files w ∧
    trace w' = trace w ++ [OpenConfig "c.json"; Stdout line].
Proof.
  intros w json_load.
  apply (main_exits_on_config_error decimal one_decimal one_decimal json_load (λ _, Ok [])
           "c.json" "CFG" [("assignment", "Project 4")] w).
  - done.
  - done.
  - by left.
Defined.


(** A whole run: three students, a pair that submitted twice and a student
    whose partner did not submit. *)
Example main_run :
  let grades := "a,8.0" +:+ LF +:+ "b,5.0" +:+ LF +:+ "c,7.0" +:+ LF in
  let w := World {[ "c.json" := "CFG"; "g.txt" := grades; "p.csv" := "PAIRS" ]} [] (λ _ _, None) in
  let json_load := λ js : string,
    if bool_decide (js = "CFG")
    then Some [("points", "10"); ("assignment", "Project 4"); ("grades", "g.txt");
               ("partners", "p.csv"); ("output_file", "out.canvas")]
    else None in
  let read_pairing := λ _ : string,
    Ok [(Text "A", Text "b"); (Text "b", Text "a "); (Text "c", Text "d")] in
  let '(o, w') := main decimal one_decimal one_decimal json_load read_pairing "c.json" w in
  exit_code o = 0%Z
  ∧ files w' !! "out.canvas"
    = Some (",Project 4" +:+ LF +:+ "Points Possible,10" +:+ LF +:+ "a,5.0" +:+ LF
            +:+ "b,5.0" +:+ LF +:+ "c,7.0" +:+ LF +:+ "d,7.0" +:+ LF)
  ∧ trace w'
    = [OpenConfig "c.json"; OpenPartners "p.csv";
       Stdout (BColors.WARNING +:+ " Warning! Asymmetric partners:"); Stdout "c d";
       Stdout BColors.ENDC; OpenGrades "g.txt"; OpenOutput "out.canvas"].
Proof. by vm_compute. Qed.

(** ** More on the process: what main opens, prints and writes *)

Lemma quiet_pure {A} (a : A) : quiet (pure a).
Proof.
  intros w o w' [= <- <-]. split; [done|]. exists []. by rewrite app_nil_r.
Qed.

Lemma quiet_exit {A} code : quiet (@exit A code).
Proof.
  intros w o w' [= <- <-]. split; [done|]. exists []. by rewrite app_nil_r.
Qed.

Lemma quiet_lift {A} (r : result A) : quiet (lift r).
Proof.
  intros w o w'. unfold lift. destruct r; intros [= <- <-];
    (split; [done|]; exists []; by rewrite app_nil_r).
Qed.

Lemma quiet_print line : quiet (print line).
Proof.
  intros w o w' [= <- <-]. split; [done|]. exists [Stdout line].
  split; [done|]. by repeat constructor.
Qed.

Lemma quiet_isfile path : quiet (isfile path).
Proof.
  intros w o w' [= <- <-]. split; [done|]. exists []. by rewrite app_nil_r.
Qed.

Lemma quiet_getitem config key : quiet (getitem config key).
Proof. unfold getitem. destruct (dict_get config key); [apply quiet_pure|apply quiet_lift]. Qed.

Lemma quiet_read_file (purpose : string → event) path :
  (∀ p p', purpose p ≠ OpenOutput p') → quiet (read_file purpose path).
Proof.
  intros Hp w o w'. unfold read_file. destruct (files w !! path); intros [= <- <-].
  - split; [done|]. exists [purpose path]. split; [done|]. by repeat constructor.
  - split; [done|]. exists []. by rewrite app_nil_r.
Qed.

Lemma quiet_bind {A B} (m : proc A) (k : A → proc B) :
  quiet m → (∀ a, quiet (k a)) → quiet (proc_bind m k).
Proof.
  intros Hm Hk w o w'. unfold proc_bind.
  destruct (m w) as [[a|c|e] w1] eqn:E;
    destruct (Hm _ _ _ E) as (Hf1 & ev1 & Ht1 & Hev1).
  - intros Hrun. destruct (Hk a _ _ _ Hrun) as (Hf2 & ev2 & Ht2 & Hev2).
    split; [congruence|]. exists (ev1 ++ ev2). split.
    + by rewrite Ht2, Ht1, app_assoc.
    + by apply Forall_app.
  - intros [= <- <-]. split; [done|]. by exists ev1.
  - intros [= <- <-]. split; [done|]. by exists ev1.
Qed.

Lemma quiet_print_all lines : quiet (print_all lines).
Proof.
  induction lines as [|l lines IH]; simpl; [apply quiet_pure|].
  apply quiet_bind; [apply quiet_print|done].
Qed.

Lemma quiet_verify_config config : quiet (_verify_config config).
Proof.
  unfold _verify_config.
  repeat first
    [ apply quiet_bind; [|intros ?]
    | apply quiet_pure | apply quiet_exit | apply quiet_print
    | apply quiet_isfile | apply quiet_getitem
    | match goal with |- quiet (if ?b then _ else _) => destruct b end
    | match goal with |- quiet (match ?o with Some _ => _ | None => _ end) => destruct o end ].
Qed.

Section MoreProcess.

Variable to_number : string → option Q.
Variable label_repr : Q → string.
Variable float_repr : Q → string.
Variable json_load : string → option dict.
Variable read_pairing : string → result (list (cell * cell)).

Lemma quiet_Config_init json_file : quiet (Config_init json_load json_file).
Proof.
  unfold Config_init.
  apply quiet_bind; [apply quiet_isfile|]. intros [].
  - apply quiet_bind; [by apply quiet_read_file|]. intros js.
    destruct (json_load js).
    + apply quiet_bind; [apply quiet_verify_config|]. intros _. apply quiet_pure.
    + apply quiet_bind; [apply quiet_print|]. intros _. apply quiet_exit.
  - apply quiet_bind; [apply quiet_print|]. intros _. apply quiet_exit.
Qed.

(** X1: a configuration path that is not the path of a file ends main by
    exit(1) after one printed line; no file is opened. *)
Theorem main_exits_without_config_file (config_path : string) (w : world) :
  files w !! config_path = None →
  ∃ line, main to_number label_repr float_repr json_load read_pairing config_path w
          = (Exit 1, World (files w) (trace w ++ [Stdout line]) (refuses w)).
Proof.
  intros Hfile. unfold main, Config_init, proc_bind at 1 2, isfile.
  rewrite Hfile. simpl. by eexists.
Qed.


Lemma verify_config_ok (config : dict) (w : world) :
  ¬ config_error (files w) config → _verify_config config w = (Return tt, w).
Proof.
  intros Hgood.
  unfold _verify_config, proc_bind, has_key, getitem, isfile, print, log, exit, pure.
  destruct (dict_get config Config.POINTS_POSSIBLE) eqn:E1; simpl;
    [|exfalso; apply Hgood; by left].
  destruct (dict_get config Config.ASSIGNMENT_NAME) eqn:E2; simpl;
    [|exfalso; apply Hgood; right; by left].
  destruct (dict_get config Config.GRADES) as [grades|] eqn:E3; simpl;
    [|exfalso; apply Hgood; right; right; by left].
  destruct (dict_get config Config.OUTPUT_FILE) eqn:E4; simpl;
    [|exfalso; apply Hgood; right; right; right; by left].
  destruct (files w !! grades) eqn:E5; simpl;
    [|exfalso; apply Hgood; right; right; right; right; left; by exists grades].
  destruct (dict_get config Config.PARTNERS) as [partners|] eqn:E6; simpl; [|done].
  destruct (files w !! partners) eqn:E7; simpl; [done|].
  exfalso. apply Hgood. right; right; right; right; right. by exists partners.
Qed.

(** X3: _verify_config lets a configuration through, printing nothing,
    exactly when the four required keys are there, the grades path is the
    path of a file and so is the partners path when the key is there. *)
Theorem verify_config_accepts (config : dict) (w : world) :
  _verify_config config w = (Return tt, w) ↔ ¬ config_error (files w) config.
Proof.
  split.
  - intros Hok Herr. destruct (verify_config_error config w Herr) as [line Hexit].
    congruence.
  - apply verify_config_ok.
Qed.

(** The part of main before the output file is opened. *)
Lemma keeps_to_output_bind {A B} (m : proc A) (k : A → proc B) :
  quiet m → (∀ a, keeps_to_output (k a)) → keeps_to_output (proc_bind m k).
Proof.
  intros Hm Hk w o w'. unfold proc_bind.
  destruct (m w) as [[a|c|e] w1] eqn:E;
    destruct (Hm _ _ _ E) as (Hf1 & ev1 & Ht1 & Hev1).
  - intros Hrun. destruct (Hk a _ _ _ Hrun) as (ev2 & Ht2 & Hnone & Hopen).
    exists (ev1 ++ ev2). split_and!.
    + by rewrite Ht2, Ht1, app_assoc.
    + intros Hno. rewrite <- Hf1. apply Hnone. intros path Hin.
      apply (Hno path), elem_of_app. by right.
    + intros path [Hin|Hin]%elem_of_app.
      { by destruct (proj1 (Forall_forall _ _) Hev1 _ Hin path). }
      rewrite <- Hf1. by apply Hopen.
  - intros [= <- <-]. exists ev1. split_and!; [done|done|].
    intros path Hin. by destruct (proj1 (Forall_forall _ _) Hev1 _ Hin path).
  - intros [= <- <-]. exists ev1. split_and!; [done|done|].
    intros path Hin. by destruct (proj1 (Forall_forall _ _) Hev1 _ Hin path).
Qed.

(** The writes print nothing, end in no [exit], and touch one file. *)
Lemma write_all_touches path texts w o w' :
  write_all path texts w = (o, w') →
  trace w' = trace w ∧ (∀ c, o ≠ Exit c) ∧ ∀ p, p ≠ path → files w' !! p = files w !! p.
Proof.
  revert w. induction texts as [|text texts IH]; intros w; simpl.
  - by intros [= <- <-].
  - unfold proc_bind, write. destruct (refuses w path (Some text)).
    + by intros [= <- <-].
    + intros Hrun. destruct (IH _ Hrun) as (Ht & Ho & Hf). split_and!; [done|done|].
      intros p Hp. rewrite (Hf p Hp). simpl. by rewrite lookup_insert_ne.
Qed.

Lemma keeps_to_output_CanvasWriter_write output_file df assignment_name points_possible :
  keeps_to_output
    (CanvasWriter_write label_repr float_repr output_file df assignment_name points_possible).
Proof.
  intros w o w'.
  change (CanvasWriter_write label_repr float_repr output_file df assignment_name
            points_possible)
    with (open_w output_file ;;
          write_all output_file
            (("," +:+ assignment_name +:+ LF)
               :: ("Points Possible," +:+ points_possible +:+ LF)
               :: map (csv_line label_repr float_repr) df)).
  unfold proc_bind, open_w. destruct (refuses w output_file None).
  - intros [= <- <-]. exists []. rewrite app_nil_r. split_and!; [done|done|].
    intros path Hin. by apply elem_of_nil in Hin.
  - intros Hrun. destruct (write_all_touches _ _ _ _ _ Hrun) as (Ht & Ho & Hf).
    simpl in Ht, Hf. exists [OpenOutput output_file]. split_and!; [done| |].
    + intros Hno. destruct (Hno output_file). left.
    + intros path [[= <-]|Hin%elem_of_nil]%elem_of_cons; [|done].
      split; [done|]. intros p Hp. by rewrite (Hf p Hp), lookup_insert_ne.
Qed.

Lemma keeps_to_output_main (config_path : string) :
  keeps_to_output (main to_number label_repr float_repr json_load read_pairing config_path).
Proof.
  unfold main.
  apply keeps_to_output_bind; [apply quiet_Config_init|]. intros config.
  apply keeps_to_output_bind.
  { destruct (dict_get config Config.PARTNERS); [|apply quiet_pure].
    apply quiet_bind; [by apply quiet_read_file|]. intros text.
    apply quiet_bind; [apply quiet_lift|]. intros rows.
    apply quiet_bind; [apply quiet_lift|]. intros r.
    apply quiet_bind; [apply quiet_print_all|]. intros _. apply quiet_pure. }
  intros partners.
  apply keeps_to_output_bind; [apply quiet_getitem|]. intros grades_path.
  apply keeps_to_output_bind; [by apply quiet_read_file|]. intros text.
  apply keeps_to_output_bind; [apply quiet_lift|]. intros grades.
  apply keeps_to_output_bind; [apply quiet_lift|]. intros merged.
  apply keeps_to_output_bind; [apply quiet_getitem|]. intros output_file.
  apply keeps_to_output_bind; [apply quiet_getitem|]. intros assignment_name.
  apply keeps_to_output_bind; [apply quiet_getitem|]. intros points_possible.
  apply keeps_to_output_CanvasWriter_write.
Qed.

(** X5: main changes no file before it opens the output file, and no other
    file after: a run that opened no file for writing, however it ends,
    leaves every file as it was; a run that opened one leaves every other
    file as it was, and does not end by [exit]. *)
Theorem main_keeps_to_output_file (config_path : string) (w : world) :
  let run := main to_number label_repr float_repr json_load read_pairing config_path w in
  ∃ events, trace run.2 = trace w ++ events ∧
    ((∀ path, OpenOutput path ∉ events) → files run.2 = files w) ∧
    (∀ path, OpenOutput path ∈ events →
       (∀ c, run.1 ≠ Exit c) ∧ ∀ p, p ≠ path → files run.2 !! p = files w !! p).
Proof.
  intros run. apply (keeps_to_output_main config_path w run.1 run.2).
  apply surjective_pairing.
Qed.

Lemma print_all_run lines w :
  print_all lines w = (Return tt, World (files w) (trace w ++ map Stdout lines) (refuses w)).
Proof.
  revert w. induction lines as [|l lines IH]; intros w; simpl.
  - unfold pure. rewrite app_nil_r. by destruct w.
  - unfold proc_bind, print, log. rewrite IH. simpl. by rewrite <- app_assoc.
Qed.

Opaque merge_partners_grades Grades_from_file Partners_init canvas_text CanvasWriter_write.

(** X4: with a configuration that names a pairing file, when every stage
    returns and the system refuses nothing at the output path, main opens the
    configuration, then the pairing file, prints the lines of
    Partners.__init__, opens the grades file, and last writes to the output
    path the Canvas text of the merged record, with the assignment name and
    the points of the configuration. *)
Theorem main_with_partners
    (config_path js ppath ptext gpath gtext output_file assignment_name points_possible : string)
    (config d : dict) (rows : list (cell * cell)) (out : list string)
    (df merged : DataFrame) (w : world) :
  files w !! config_path = Some js → json_load js = Some config →
  dict_get config Config.POINTS_POSSIBLE = Some points_possible →
  dict_get config Config.ASSIGNMENT_NAME = Some assignment_name →
  dict_get config Config.GRADES = Some gpath →
  dict_get config Config.OUTPUT_FILE = Some output_file →
  dict_get config Config.PARTNERS = Some ppath →
  files w !! gpath = Some gtext → files w !! ppath = Some ptext →
  read_pairing ptext = Ok rows → Partners_init rows = Ok (d, out) →
  Grades_from_file to_number gtext = Ok df →
  merge_partners_grades df (Some d) = Ok merged →
  (∀ op, refuses w output_file op = None) →
  main to_number label_repr float_repr json_load read_pairing config_path w
  = (Return tt,
     World (<[output_file := canvas_text label_repr float_repr merged assignment_name points_possible]>
              (files w))
           (trace w ++ [OpenConfig config_path; OpenPartners ppath] ++ map Stdout out
              ++ [OpenGrades gpath; OpenOutput output_file])
           (refuses w)).
Proof.
  intros Hcfg Hjson Hpoints Hname Hgrades Hout Hpartners Hg Hp Hrows Hinit Hdf Hmerge Hfree.
  assert (¬ config_error (files w) config) as Hgood.
  { intros [?|[?|[?|[?|[(? & ? & ?)|(? & ? & ?)]]]]]; congruence. }
  apply (verify_config_ok config (World (files w) (trace w ++ [OpenConfig config_path]) (refuses w)))
    in Hgood.
  unfold main, Config_init, proc_bind at 1 2 3, isfile, read_file.
  rewrite Hcfg. simpl. rewrite Hcfg, Hjson.
  unfold proc_bind at 1. rewrite Hgood. unfold pure at 1.
  unfold proc_bind at 1 2 3 4 5. rewrite Hpartners. simpl. rewrite Hp, Hrows. simpl.
  rewrite Hinit. simpl. rewrite print_all_run. unfold pure at 1. simpl.
  unfold proc_bind, getitem, pure, lift.
  rewrite Hgrades. simpl. rewrite Hg. rewrite Hdf, Hmerge, Hout, Hname, Hpoints. simpl.
  rewrite CanvasWriter_write_run by done. simpl.
  do 2 f_equal. by rewrite <- !app_assoc.
Qed.

Transparent merge_partners_grades.

(** X6: with a configuration without the key "partners", when the grade
    file parses and the system refuses nothing at the output path, main reads
    no pairing file and merges nothing: it writes the record as the Grade
    Parser built it. *)
Theorem main_without_partners
    (config_path js gpath gtext output_file assignment_name points_possible : string)
    (config : dict) (df : DataFrame) (w : world) :
  files w !! config_path = Some js → json_load js = Some config →
  dict_get config Config.POINTS_POSSIBLE = Some points_possible →
  dict_get config Config.ASSIGNMENT_NAME = Some assignment_name →
  dict_get config Config.GRADES = Some gpath →
  dict_get config Config.OUTPUT_FILE = Some output_file →
  dict_get config Config.PARTNERS = None →
  files w !! gpath = Some gtext →
  Grades_from_file to_number gtext = Ok df →
  (∀ op, refuses w output_file op = None) →
  main to_number label_repr float_repr json_load read_pairing config_path w
  = (Return tt,
     World (<[output_file := canvas_text label_repr float_repr df assignment_name points_possible]>
              (files w))
           (trace w ++ [OpenConfig config_path; OpenGrades gpath; OpenOutput output_file])
           (refuses w)).
Proof.
  intros Hcfg Hjson Hpoints Hname Hgrades Hout Hpartners Hg Hdf Hfree.
  assert (¬ config_error (files w) config) as Hgood.
  { intros [?|[?|[?|[?|[(? & ? & ?)|(? & ? & ?)]]]]]; congruence. }
  apply (verify_config_ok config (World (files w) (trace w ++ [OpenConfig config_path]) (refuses w)))
    in Hgood.
  unfold main, Config_init, proc_bind at 1 2 3, isfile, read_file.
  rewrite Hcfg. simpl. rewrite Hcfg, Hjson.
  unfold proc_bind at 1. rewrite Hgood. unfold pure at 1.
  unfold proc_bind, getitem, pure, lift.
  rewrite Hpartners, Hgrades. simpl. rewrite Hg. rewrite Hdf. simpl.
  rewrite Hout, Hname, Hpoints. simpl.
  rewrite CanvasWriter_write_run by done. simpl.
  do 2 f_equal. by rewrite <- !app_assoc.
Qed.

Transparent merge_partners_grades Grades_from_file Partners_init canvas_text
  CanvasWriter_write.

End MoreProcess.

(** ** A write that the system refuses *)

Lemma write_all_refused path texts1 text texts2 old e w :
  Forall (λ t, refuses w path (Some t) = None) texts1 →
  refuses w path (Some text) = Some e →
  files w !! path = Some old →
  write_all path (texts1 ++ text :: texts2) w
  = (Uncaught e,
     World (<[path := old +:+ foldr String.append EmptyString texts1]> (files w))
           (trace w) (refuses w)).
Proof.
  intros Hfree Hrefused. revert old w Hfree Hrefused.
  induction texts1 as [|t texts1 IH]; intros old w Hfree Hrefused Hold; simpl.
  - unfold proc_bind, write. rewrite Hrefused.
    by rewrite append_empty_r, insert_id, world_eta.
  - apply Forall_cons in Hfree as [Ht Hfree].
    unfold proc_bind at 1, write at 1. rewrite Ht, Hold. simpl.
    rewrite (IH (old +:+ t)); simpl; [|done|done|by rewrite lookup_insert_eq].
    by rewrite insert_insert_eq, append_assoc.
Qed.

Section Refused.

Variable label_repr : Q → string.
Variable float_repr : Q → string.

(** X17: when the system takes the two head lines and the first rows and
    refuses the line of a row, CanvasWriter.write ends with the exception of
    that write, and the output file holds the head lines and the rows before
    that row: what the path held before the run is lost, and the file is not
    the whole Canvas file. *)
Theorem CanvasWriter_write_refused_row (output_file : string)
    (written : DataFrame) (row : cell * cell) (rest : DataFrame)
    (assignment_name points_possible : string) (e : exn) (w : world) :
  refuses w output_file None = None →
  refuses w output_file (Some ("," +:+ assignment_name +:+ LF)) = None →
  refuses w output_file (Some ("Points Possible," +:+ points_possible +:+ LF)) = None →
  Forall (λ r, refuses w output_file (Some (csv_line label_repr float_repr r)) = None)
         written →
  refuses w output_file (Some (csv_line label_repr float_repr row)) = Some e →
  CanvasWriter_write label_repr float_repr output_file (written ++ row :: rest)
    assignment_name points_possible w
  = (Uncaught e,
     World (<[output_file :=
                canvas_text label_repr float_repr written assignment_name points_possible]>
              (files w))
           (trace w ++ [OpenOutput output_file]) (refuses w)).
Proof.
  intros Hopen Hname Hpoints Hwritten Hrow.
  change (CanvasWriter_write label_repr float_repr output_file (written ++ row :: rest)
            assignment_name points_possible)
    with (open_w output_file ;;
          write_all output_file
            (("," +:+ assignment_name +:+ LF)
               :: ("Points Possible," +:+ points_possible +:+ LF)
               :: map (csv_line label_repr float_repr) (written ++ row :: rest))).
  unfold proc_bind, open_w. rewrite Hopen. rewrite map_app. cbn [map].
  rewrite !app_comm_cons.
  rewrite (write_all_refused output_file
             (("," +:+ assignment_name +:+ LF)
                :: ("Points Possible," +:+ points_possible +:+ LF)
                :: map (csv_line label_repr float_repr) written)
             (csv_line label_repr float_repr row) _ EmptyString e).
  - unfold canvas_text, to_csv. cbn [foldr files trace refuses].
    by rewrite insert_insert_eq, append_nil, !append_assoc.
  - simpl. repeat constructor; [done|done|]. by apply Forall_fmap.
  - done.
  - apply lookup_insert_eq.
Qed.

End Refused.

(** X17, witness: the encoding of the output file does not have the name in
    the second row; the file is left with the head lines and the first
    row. *)
Lemma CanvasWriter_write_refused_row_second :
  let bad := csv_line one_decimal one_decimal (Text (bytes [197; 129] +:+ "ucja"), Num 7) in
  let w := World {[ "out.canvas" := "old" ]} []
             (λ _ op, if bool_decide (op = Some bad) then Some UnicodeEncodeError else None) in
  CanvasWriter_write one_decimal one_decimal "out.canvas"
    ([(Text "ann", Num 5)] ++ (Text (bytes [197; 129] +:+ "ucja"), Num 7) :: [(Text "zed", Num 3)])
    "Project 4" "10" w
  = (Uncaught UnicodeEncodeError,
     World (<["out.canvas" :=
                canvas_text one_decimal one_decimal [(Text "ann", Num 5)] "Project 4" "10"]>
              (files w))
           (trace w ++ [OpenOutput "out.canvas"]) (refuses w)).
Proof.
  intros bad w.
  apply (CanvasWriter_write_refused_row one_decimal one_decimal "out.canvas"
           [(Text "ann", Num 5)] (Text (bytes [197; 129] +:+ "ucja"), Num 7)
           [(Text "zed", Num 3)] "Project 4" "10" UnicodeEncodeError w).
  - done.
  - done.
  - done.
  - by repeat constructor.
  - done.
Defined.

(** ** More on merge_partners_grades *)

Lemma omap_snoc {A B} (f : A → option B) (l : list A) x :
  omap f (l ++ [x]) = omap f l ++ match f x with Some y => [y] | None => [] end.
Proof. rewrite omap_app. simpl. by destruct (f x). Qed.

(** X7: on a score record the merge always returns, and the merged record
    lists the students of the record in their order, followed by one row for
    each student whose declared partner the record lacks, labelled with that
    partner, in the order of the students: no student is dropped or moved. *)
Theorem merge_index_of_score_record (df : DataFrame) (p : dict) :
  score_record df →
  ∃ merged, merge_partners_grades df (Some p) = Ok merged ∧
    index merged = index df ++ omap (absent_partner p df) (index df).
Proof.
  intros Hrec. destruct p as [|kv p'] eqn:Ep.
  { exists df. split; [done|]. unfold absent_partner.
    replace (omap _ (index df)) with (@nil cell); [by rewrite app_nil_r|].
    induction (index df) as [|x l IH]; [done|]. simpl. by destruct x. }
  rewrite <- Ep.
  destruct (merge_loop p df (λ pre _ ex, index ex = omap (absent_partner p df) pre) Hrec)
    as (df' & ex' & Hfold & _ & Hidx & _ & Hex).
  - done.
  - intros pre x post d ex d' ex' Hsplit Hidx Hrec' HI Hturn.
    rewrite omap_snoc.
    destruct Hturn as [Hnone|s partner v -> Hs Hpartner Hv|s partner qs qp -> Hs Hpartner Hqs Hqp].
    + rewrite HI. unfold absent_partner. destruct x as [|s| | |]; rewrite ?app_nil_r; try done.
      by rewrite (Hnone s eq_refl), app_nil_r.
    + unfold index in *. rewrite fmap_app, HI. simpl. f_equal.
      unfold absent_partner. rewrite Hs. rewrite Hidx in Hpartner. by rewrite decide_False.
    + rewrite HI. unfold absent_partner. rewrite Hs. rewrite Hidx in Hpartner.
      by rewrite decide_True, app_nil_r.
  - exists (df' ++ ex'). split.
    + apply merge_partners_grades_loop; [by subst|done].
    + unfold index in *. by rewrite fmap_app, Hidx, Hex.
Qed.

(** X8: on a score record the merge never raises a score: every student of
    the record ends with a score that is at most the score they came with. *)
Theorem merge_never_raises_a_score (df : DataFrame) (p : dict) :
  score_record df →
  ∃ merged, merge_partners_grades df (Some p) = Ok merged ∧
    ∀ label q, (label, Num q) ∈ df →
      ∃ q', loc merged label = [Num q'] ∧ (q' <= q)%Q.
Proof.
  intros Hrec. pose proof Hrec as [Hnd _]. destruct p as [|kv p'] eqn:Ep.
  { exists df. split; [done|]. intros label q Hin. exists q.
    split; [by apply loc_unique|apply Qle_refl]. }
  rewrite <- Ep.
  destruct (merge_loop p df (λ _ d _,
      ∀ label q, (label, Num q) ∈ df → ∃ q', loc d label = [Num q'] ∧ (q' <= q)%Q) Hrec)
    as (df' & ex' & Hfold & _ & _ & Hex & HI).
  - intros label q Hin. exists q. split; [by apply loc_unique|apply Qle_refl].
  - intros pre x post d ex d' ex' Hsplit Hidx Hrec' HI Hturn label q Hin.
    destruct (HI label q Hin) as (q' & Hloc & Hle).
    destruct Hturn as [Hnone|s partner v -> Hs Hpartner Hv|s partner qs qp -> Hs Hpartner Hqs Hqp];
      [by exists q'..|].
    destruct (decide (label = Text s)) as [->|Hl1];
      [|destruct (decide (label = Text partner)) as [->|Hl2]].
    + exists (Qmin qs qp). split; [eapply loc_set_both_hit; [done|by left]|].
      assert (q' = qs) as -> by congruence.
      eapply Qle_trans; [apply Q.le_min_l|done].
    + exists (Qmin qs qp). split; [eapply loc_set_both_hit; [done|by right]|].
      assert (q' = qp) as -> by congruence.
      eapply Qle_trans; [apply Q.le_min_r|done].
    + exists q'. by rewrite loc_set_both_miss.
  - exists (df' ++ ex'). split.
    + apply merge_partners_grades_loop; [by subst|done].
    + intros label q Hin. destruct (HI label q Hin) as (q' & Hloc & Hle).
      exists q'. split; [|done].
      by rewrite loc_app, Hloc, (waiting_loc _ _ _ Hex (elem_of_index _ _ _ Hin)).
Qed.

(** X9: on a score record a student who has no partner entry, and whom no
    student of the record declares as partner, keeps their score. *)
Theorem merge_leaves_unpaired_student (df : DataFrame) (p : dict) (label v : cell) :
  score_record df → (label, v) ∈ df →
  (∀ s, label = Text s → dict_get p s = None) →
  (∀ c partner, Text c ∈ index df → dict_get p c = Some partner → label ≠ Text partner) →
  ∃ merged, merge_partners_grades df (Some p) = Ok merged ∧ loc merged label = [v].
Proof.
  intros Hrec Hin Hnone Hundeclared. pose proof Hrec as [Hnd _].
  destruct p as [|kv p'] eqn:Ep.
  { exists df. split; [done|]. by apply loc_unique. }
  rewrite <- Ep in *.
  destruct (merge_loop p df (λ _ d _, loc d label = [v]) Hrec)
    as (df' & ex' & Hfold & _ & _ & Hex & HI).
  - by apply loc_unique.
  - intros pre x post d ex d' ex' Hsplit Hidx Hrec' HI Hturn.
    assert (x ∈ index df) as Hx by (rewrite Hsplit; apply elem_of_app; right; left).
    destruct Hturn as [?|s partner w -> Hs Hpartner Hw|s partner qs qp -> Hs Hpartner Hqs Hqp];
      [done..|].
    rewrite loc_set_both_miss; [done| |by eapply Hundeclared].
    intros ->. specialize (Hnone s eq_refl). congruence.
  - exists (df' ++ ex'). split.
    + apply merge_partners_grades_loop; [by subst|done].
    + by rewrite loc_app, HI, (waiting_loc _ _ _ Hex (elem_of_index _ _ _ Hin)).
Qed.

Lemma foldM_fixed {A B} (f : A → B → result A) (a : A) (l : list B) :
  (∀ x, x ∈ l → f a x = Ok a) → foldM f a l = Ok a.
Proof.
  induction l as [|x l IH]; intros Hl; simpl; [done|].
  rewrite Hl by left. simpl. apply IH. intros y Hy. apply Hl. by right.
Qed.

(** X10: a partner relation none of whose keys is a student of the record
    changes nothing, whatever the record holds: no row is made up for a
    student who is in the relation only. *)
Theorem merge_with_foreign_relation (df : DataFrame) (p : dict) :
  (∀ s, Text s ∈ index df → dict_get p s = None) →
  merge_partners_grades df (Some p) = Ok df.
Proof.
  intros Hforeign. unfold merge_partners_grades. destruct p as [|kv p'] eqn:Ep; [done|].
  rewrite <- Ep in *. rewrite foldM_fixed.
  - simpl. by rewrite app_nil_r.
  - intros x Hx. unfold merge_step. destruct x as [|s| | |]; try done.
    by rewrite (Hforeign s Hx).
Qed.

Lemma merge_step_index p d ex x d' ex' :
  merge_step p (d, ex) x = Ok (d', ex') → index d' = index d.
Proof.
  unfold merge_step. destruct x as [|s| | |]; try (by intros [= <- <-]).
  destruct (dict_get p s) as [partner|]; [|by intros [= <- <-]].
  destruct (loc_score d (Text s)) as [v|]; simpl; [|done].
  case_decide; [|by intros [= <- <-]].
  destruct (loc_score d (Text partner)) as [w|]; simpl; [|done].
  destruct (py_min v w) as [m|]; simpl; [|done].
  intros [= <- <-]. by rewrite !index_set_score.
Qed.

Lemma loc_same_index (d d' : DataFrame) label :
  index d' = index d → length (loc d' label) = length (loc d label).
Proof. intros Hidx. by rewrite !loc_length, Hidx. Qed.

Lemma merge_step_repeated_label p (s partner : string) d ex :
  (2 ≤ length (loc d (Text s)))%nat → dict_get p s = Some partner →
  merge_step p (d, ex) (Text s) = Raise NonScalar.
Proof.
  intros Hlen Hp. unfold merge_step. rewrite Hp. unfold loc_score.
  destruct (loc d (Text s)) as [|v [|v' vs]]; simpl in *; try lia; done.
Qed.

Lemma foldM_repeated_label p (s partner : string) (l : list cell) d ex :
  (2 ≤ length (loc d (Text s)))%nat → dict_get p s = Some partner →
  Text s ∈ l → is_ok (foldM (merge_step p) (d, ex) l) = false.
Proof.
  intros Hlen Hp. revert d ex Hlen.
  induction l as [|x l IH]; intros d ex Hlen Hin; [by apply elem_of_nil in Hin|].
  cbn [foldM]. destruct (decide (x = Text s)) as [->|Hx].
  - by rewrite (merge_step_repeated_label p s partner).
  - destruct (merge_step p (d, ex) x) as [[d' ex']|] eqn:E; simpl; [|done].
    apply IH.
    + by rewrite (loc_same_index _ _ _ (merge_step_index _ _ _ _ _ _ E)).
    + apply elem_of_cons in Hin as [?|?]; [congruence|done].
Qed.

(** X11: when a student with a partner entry has two rows in the record and
    the partner is in the record, the merge raises: the students come out of
    no merge. *)
Theorem merge_raises_on_repeated_student (df : DataFrame) (p : dict) (s partner : string)
    (v1 v2 : cell) (vs : list cell) :
  loc df (Text s) = v1 :: v2 :: vs →
  dict_get p s = Some partner → Text partner ∈ index df →
  is_ok (merge_partners_grades df (Some p)) = false.
Proof.
  intros Hloc Hp _. unfold merge_partners_grades.
  destruct p as [|kv p'] eqn:Ep; [done|]. rewrite <- Ep in *.
  pose proof (foldM_repeated_label p s partner (index df) df [] ) as Hfold.
  destruct (foldM (merge_step p) (df, []) (index df)) as [[d ex]|]; [|done].
  exfalso. assert (is_ok (Ok (d, ex)) = false) as Habs; [|done].
  apply Hfold; [rewrite Hloc; simpl; lia|done|].
  assert (v1 ∈ loc df (Text s)) as Hv by (rewrite Hloc; left).
  apply loc_elem_of in Hv. by eapply elem_of_index.
Qed.

(** ** More on Partners.__init__ *)

Lemma preprocess_rows_fixed (pairs : list (string * string)) :
  Forall (λ kv, normalized kv.1 ∧ normalized kv.2) pairs →
  preprocess_rows (map (λ kv, (Text kv.1, Text kv.2)) pairs) = Ok pairs.
Proof.
  induction 1 as [|[k v] pairs [[Hk1 Hk2] [Hv1 Hv2]] _ IH]; [done|].
  simpl in *. rewrite IH. simpl. by rewrite Hk1, Hk2, Hv1, Hv2.
Qed.

(** X12: the warning of Partners.__init__ is printed exactly when the dict
    is not symmetric: nothing is printed if and only if every student that a
    key declares as partner is a key that declares the student back. *)
Theorem Partners_init_silent_iff_symmetric (rows : list (cell * cell)) :
  match Partners_init rows with
  | Ok (d, out) =>
      out = [] ↔ ∀ a b, dict_get d a = Some b → dict_get d b = Some a
  | Raise _ => True
  end.
Proof.
  unfold Partners_init. destruct (preprocess_rows rows) as [pairs|]; simpl; [|done].
  pose proof (dict_of_pairs_NoDup pairs) as Hd.
  rewrite asymmetric_warning_nil. split.
  - intros Hnil a b Hab.
    destruct (decide (dict_get (dict_of_pairs pairs) b = Some a)) as [|Hba]; [done|].
    exfalso. assert ((a, b) ∈ no_partners (dict_of_pairs pairs)) as Hin.
    { apply elem_of_no_partners; [done|]. split; [done|by right]. }
    rewrite Hnil in Hin. by apply elem_of_nil in Hin.
  - intros Hsym. destruct (no_partners (dict_of_pairs pairs)) as [|[a b] np] eqn:E; [done|].
    exfalso. assert ((a, b) ∈ no_partners (dict_of_pairs pairs)) as Hin by (rewrite E; left).
    apply elem_of_no_partners in Hin as [Hab [Hnone|Hne]]; [| |done].
    + rewrite (Hsym a b Hab) in Hnone. done.
    + by apply Hne, Hsym.
Qed.

(** X13: Partners.__init__ changes nothing in a relation it built: run on the
    entries of its own dict it returns the same dict and prints the same
    lines. *)
Theorem Partners_init_fixed_point (rows : list (cell * cell)) :
  match Partners_init rows with
  | Ok (d, out) => Partners_init (map (λ kv, (Text kv.1, Text kv.2)) d) = Ok (d, out)
  | Raise _ => True
  end.
Proof.
  unfold Partners_init. destruct (preprocess_rows rows) as [pairs|] eqn:E; simpl; [|done].
  apply preprocess_rows_normalized in E.
  rewrite preprocess_rows_fixed.
  - simpl. by rewrite dict_of_pairs_id by apply dict_of_pairs_NoDup.
  - apply Forall_forall. intros [k v] Hin%dict_of_pairs_elem_of.
    by apply (proj1 (Forall_forall _ _) E (k, v)).
Qed.

(** ** More on Grades.__init__ *)

Section MoreGrades.

Variable to_number : string → option Q.

Lemma rows_of_app l1 l2 : rows_of (l1 ++ l2) = rows_of l1 ++ rows_of l2.
Proof. unfold rows_of. by rewrite map_app, filter_app. Qed.

Lemma rows_of_blank line : strip line = EmptyString → rows_of [line] = [].
Proof. unfold rows_of. simpl. by intros ->. Qed.

Lemma rows_of_cons l ls :
  rows_of (l :: ls)
  = if non_blank (split_fields (strip l)) then split_fields (strip l) :: rows_of ls
    else rows_of ls.
Proof.
  unfold rows_of. cbn [map]. rewrite filter_cons.
  destruct (non_blank (split_fields (strip l))); by case_decide.
Qed.

Lemma rows_of_skip before after blank :
  strip blank = EmptyString → rows_of (before ++ blank :: after) = rows_of (before ++ after).
Proof.
  intros Hblank. change (blank :: after) with ([blank] ++ after).
  by rewrite !rows_of_app, rows_of_blank.
Qed.

Lemma Grades_init_parse_rows lines lines' :
  bom_check lines = bom_check lines' → parse_rows lines = parse_rows lines' →
  Grades_init to_number lines = Grades_init to_number lines'.
Proof. intros Hbom Hrows. unfold Grades_init, read_csv. by rewrite Hbom, Hrows. Qed.

(** X14: a blank line changes nothing in what the Grade Parser builds or
    raises, wherever it stands, but for one place: before a first line that
    starts with a byte order mark, where it keeps the parser from dropping the
    mark. *)
Theorem Grades_init_skips_blank_lines (before after : list string) (blank : string) :
  strip blank = EmptyString →
  (before = [] → ∀ row, first_line_row after = Some row → check_for_bom row = Ok row) →
  Grades_init to_number (before ++ blank :: after) = Grades_init to_number (before ++ after).
Proof.
  intros Hblank Hmark. destruct before as [|l before]; simpl.
  - specialize (Hmark eq_refl).
    assert (first_line_row (blank :: after) = None) as Hnone.
    { simpl. by rewrite Hblank. }
    apply Grades_init_parse_rows.
    + unfold bom_check. rewrite Hnone.
      destruct (first_line_row after) as [row|]; [|done]. by rewrite (Hmark row).
    + unfold parse_rows. rewrite Hnone.
      pose proof (rows_of_skip [] after blank Hblank) as Hskip. simpl in Hskip.
      rewrite Hskip. destruct after as [|l ls]; [done|]. simpl in *.
      destruct (non_blank (split_fields (strip l))) eqn:Hrow; [|done].
      by rewrite (Hmark _ eq_refl), rows_of_cons, Hrow.
  - apply Grades_init_parse_rows; [done|]. unfold parse_rows. simpl.
    assert (rows_of (l :: before ++ blank :: after) = rows_of (l :: before ++ after)) as Hrows.
    { apply (rows_of_skip (l :: before)), Hblank. }
    rewrite (rows_of_skip before after blank Hblank).
    by destruct (non_blank (split_fields (strip l))).
Qed.

Lemma infer_column_numeric (fields : list (option string)) :
  Forall (λ f, ∃ v, f = Some v ∧ is_na v = false ∧ is_Some (to_number v)) fields →
  Forall (λ c, is_num c = true) (infer_column to_number fields).
Proof.
  intros Hf. unfold infer_column.
  replace (forallb (numeric_or_na to_number) fields) with true.
  - apply Forall_fmap. eapply Forall_impl; [exact Hf|].
    intros f (v & -> & Hna & [q Hq]). simpl. by rewrite Hna, Hq.
  - symmetry. apply forallb_Forall. eapply Forall_impl; [exact Hf|].
    intros f (v & -> & Hna & Hq). simpl. rewrite Hna. simpl. by apply bool_decide_eq_true.
Qed.

(** X15: a grade file whose keys give pairwise distinct labels and whose
    score fields all read as numbers is parsed into a score record, and the
    merge of that record returns for every partner relation. *)
Theorem parsed_numeric_grades_merge (lines : list string) (df : DataFrame)
    (partners : option dict) :
  Grades_init to_number lines = Ok df →
  NoDup (index df) →
  (∀ row, row ∈ parse_rows lines →
     ∃ v, row !! 1 = Some v ∧ is_na v = false ∧ is_Some (to_number v)) →
  score_record df ∧ ∃ merged, merge_partners_grades df partners = Ok merged.
Proof.
  intros Hinit Hnd Hscores.
  assert (score_record df) as Hrec; [|split; [done|by apply merge_partners_grades_total]].
  split; [done|]. destruct (Grades_init_index _ _ _ Hinit) as [_ Hsc].
  assert (Forall (λ c, is_num c = true) df.*2) as Hnum.
  { rewrite Hsc. apply infer_column_numeric. unfold column. apply Forall_fmap.
    apply Forall_forall. intros row Hrow. by apply Hscores. }
  by apply Forall_fmap in Hnum.
Qed.

End MoreGrades.

(** X15, witness: two students with numeric scores. *)
Lemma parsed_numeric_grades_merge_two :
  let lines := ["a,8.0"; "b,5.0"] in
  let df := [(Text "a", Num 8); (Text "b", Num 5)] in
  score_record df ∧
  ∃ merged, merge_partners_grades df (Some [("a", "b"); ("b", "a")]) = Ok merged.
Proof.
  intros lines df.
  apply (parsed_numeric_grades_merge decimal lines df).
  - by vm_compute.
  - apply (bool_decide_unpack _). by vm_compute.
  - intros row Hrow. vm_compute in Hrow.
    index_cases Hrow; (eexists; split; [reflexivity|split; [by vm_compute|vm_compute; by eexists]]).
Defined.

(** ** A clean grade file is written back with its keys *)

Lemma split_fields_no_sep s : no_sep s = true → split_fields s = [s].
Proof.
  induction s as [|c s IH]; simpl; [done|].
  intros [Hc Hs]%andb_true_iff. apply negb_true_iff in Hc. by rewrite Hc, IH.
Qed.

Lemma split_fields_entry key sep score :
  is_sep sep = true → no_sep key = true → no_sep score = true →
  split_fields (key +:+ String sep score) = [key; score].
Proof.
  intros Hsep Hkey Hscore. induction key as [|c key IH].
  - rewrite append_nil. simpl. by rewrite Hsep, split_fields_no_sep.
  - simpl in Hkey. apply andb_true_iff in Hkey as [Hc Hkey]. apply negb_true_iff in Hc.
    rewrite append_cons. simpl. by rewrite Hc, IH.
Qed.

Section WrittenBack.

Variable to_number : string → option Q.
Variable label_repr : Q → string.
Variable float_repr : Q → string.

Lemma rows_of_clean (entries : list (string * ascii * string)) :
  Forall (clean_entry to_number) entries →
  rows_of (map grade_line entries) = map (λ e, [e.1.1; e.2]) entries.
Proof.
  induction 1 as [|[[key sep] score] entries He _ IH]; [done|].
  change (map grade_line ((key, sep, score) :: entries))
    with (grade_line (key, sep, score) :: map grade_line entries).
  rewrite rows_of_cons, IH.
  destruct He as (Hsep & Hkey & Hscore & Hstrip & _).
  rewrite Hstrip. unfold grade_line. simpl. by rewrite split_fields_entry.
Qed.

Lemma parse_rows_clean (entries : list (string * ascii * string)) :
  Forall (clean_entry to_number) entries →
  bom_check (map grade_line entries) = Ok tt ∧
  parse_rows (map grade_line entries) = map (λ e, [e.1.1; e.2]) entries.
Proof.
  intros Hclean. pose proof (rows_of_clean entries Hclean) as Hrows.
  destruct Hclean as [|[[key sep] score] entries He Hclean]; [done|].
  pose proof (rows_of_clean entries Hclean) as Hrest.
  destruct He as (Hsep & Hkey & Hscore & Hstrip & _ & _ & _ & _ & _ & Hbom & _).
  change (map grade_line ((key, sep, score) :: entries))
    with (grade_line (key, sep, score) :: map grade_line entries).
  unfold bom_check, parse_rows, first_line_row. rewrite Hstrip.
  change (grade_line (key, sep, score)) with (key +:+ String sep score).
  rewrite split_fields_entry by done. cbn [non_blank check_for_bom].
  unfold bom_field. rewrite Hbom. simpl. by rewrite Hrest.
Qed.

Lemma clean_keys_column (entries : list (string * ascii * string)) :
  entries ≠ [] → Forall (clean_entry to_number) entries →
  infer_column to_number (map (λ e : string * ascii * string, Some e.1.1) entries)
  = map (λ e, Text e.1.1) entries.
Proof.
  intros Hne Hclean. unfold infer_column.
  replace (forallb (numeric_or_na to_number) _) with false; [replace (forallb _ _) with false|].
  - rewrite map_map. apply Forall_fmap_ext_1. eapply Forall_impl; [exact Hclean|].
    intros [[key sep] score] (_ & _ & _ & _ & _ & Hna & _). simpl. by rewrite Hna.
  - destruct Hclean as [|[[key sep] score] entries
      (_ & _ & _ & _ & _ & Hna & _ & Ht & Hf & _) _]; [done|].
    simpl. by rewrite Hna, Ht, Hf.
  - destruct Hclean as [|[[key sep] score] entries
      (_ & _ & _ & _ & _ & Hna & Hnum & _) _]; [done|].
    simpl. by rewrite Hna, Hnum.
Qed.

Lemma clean_scores_column (entries : list (string * ascii * string)) :
  Forall (clean_entry to_number) entries →
  infer_column to_number (map (λ e : string * ascii * string, Some e.2) entries)
  = map (λ e, numeric_cell to_number (Some e.2)) entries.
Proof.
  intros Hclean. unfold infer_column.
  replace (forallb _ _) with true; [by rewrite map_map|].
  symmetry. apply forallb_Forall, Forall_fmap.
  eapply Forall_impl; [exact Hclean|].
  intros [[key sep] score] (_ & _ & _ & _ & _ & _ & _ & _ & _ & _ & _ & Hna & Hq). simpl.
  rewrite Hna. simpl. by apply bool_decide_eq_true.
Qed.

(** X16: a grade file of clean lines is parsed, and written back line for
    line: the key as the file has it, no letter lowered and nothing quoted, a
    comma whatever the separator was, and the score as the number it reads
    as. *)
Theorem clean_grades_written_back (entries : list (string * ascii * string)) :
  entries ≠ [] →
  Forall (clean_entry to_number) entries →
  ∃ df, Grades_init to_number (map grade_line entries) = Ok df ∧
    to_csv label_repr float_repr df
    = foldr String.append EmptyString
        (map (λ e : string * ascii * string,
                e.1.1 +:+ "," +:+ from_option float_repr EmptyString (to_number e.2) +:+ LF)
             entries).
Proof.
  intros Hne Hclean.
  destruct (parse_rows_clean entries Hclean) as [Hbom Hrows].
  exists (zip (infer_column to_number
                 (column 0 (map (λ e : string * ascii * string, [e.1.1; e.2]) entries)))
              (infer_column to_number
                 (column 1 (map (λ e : string * ascii * string, [e.1.1; e.2]) entries)))).
  split.
  - apply Grades_init_Ok. split; [done|]. destruct entries as [|e entries]; [done|].
    exists [e.1.1; e.2], (map (λ e, [e.1.1; e.2]) entries).
    split_and!; [done|done| |reflexivity].
    apply Forall_fmap, Forall_forall. intros ? _. simpl. lia.
  - unfold column. rewrite !map_map. simpl.
    rewrite clean_keys_column, clean_scores_column by done.
    clear Hrows Hbom Hne. unfold to_csv. f_equal.
    induction Hclean as [|[[key sep] score] entries He _ IH]; [done|].
    cbn [map zip zip_with]. f_equal; [|exact IH].
    destruct He as (_ & _ & _ & _ & _ & _ & _ & _ & _ & _ & Hplain & Hna & [q Hq]).
    unfold csv_line. simpl. rewrite Hna, Hq. simpl.
    by rewrite csv_field_plain.
Qed.

End WrittenBack.

(** X16, witness: a tab and a comma, a key with a capital and an inner
    space. *)
Lemma clean_grades_written_back_two :
  let entries := [("Ana Cruz", ascii_of_nat 9, "8.0"); ("student2", ","%char, "2.5")] in
  ∃ df, Grades_init decimal (map grade_line entries) = Ok df ∧
    to_csv one_decimal one_decimal df
    = foldr String.append EmptyString
        (map (λ e : string * ascii * string,
                e.1.1 +:+ "," +:+ from_option one_decimal EmptyString (decimal e.2) +:+ LF)
             entries).
Proof.
  intros entries. apply (clean_grades_written_back decimal one_decimal one_decimal entries).
  - done.
  - repeat constructor; by eexists.
Defined.

(** ** The further properties on concrete runs *)

(** X1, witness: no file at all. *)
Lemma main_exits_without_config_file_empty :
  let w := World ∅ [] (λ _ _, None) in
  ∃ line, main decimal one_decimal one_decimal (λ _, None) (λ _, Ok []) "c.json" w
          = (Exit 1, World (files w) (trace w ++ [Stdout line]) (refuses w)).
Proof.
  intros w.
  apply (main_exits_without_config_file decimal one_decimal one_decimal (λ _, None) (λ _, Ok [])
           "c.json" w).
  done.
Defined.


(** X4, witness: three students, a pair that submitted twice and a student
    whose partner did not submit. *)
Lemma main_with_partners_three :
  let grades := "a,8.0" +:+ LF +:+ "b,5.0" +:+ LF +:+ "c,7.0" +:+ LF in
  let w := World {[ "c.json" := "CFG"; "g.txt" := grades; "p.csv" := "PAIRS" ]} [] (λ _ _, None) in
  let config := [("points", "10"); ("assignment", "Project 4"); ("grades", "g.txt");
                 ("partners", "p.csv"); ("output_file", "out.canvas")] in
  let json_load := λ js : string, if bool_decide (js = "CFG") then Some config else None in
  let rows := [(Text "A", Text "b"); (Text "b", Text "a "); (Text "c", Text "d")] in
  let out := [BColors.WARNING +:+ " Warning! Asymmetric partners:"; "c d"; BColors.ENDC] in
  let merged := [(Text "a", Num 5); (Text "b", Num 5); (Text "c", Num 7); (Text "d", Num 7)] in
  main decimal one_decimal one_decimal json_load (λ _, Ok rows) "c.json" w
  = (Return tt,
     World (<["out.canvas" := canvas_text one_decimal one_decimal merged "Project 4" "10"]> (files w))
           (trace w ++ [OpenConfig "c.json"; OpenPartners "p.csv"] ++ map Stdout out
              ++ [OpenGrades "g.txt"; OpenOutput "out.canvas"])
           (refuses w)).
Proof.
  intros grades w config json_load rows out merged.
  apply (main_with_partners decimal one_decimal one_decimal json_load (λ _, Ok rows)
           "c.json" "CFG" "p.csv" "PAIRS" "g.txt" grades "out.canvas" "Project 4" "10"
           config [("a", "b"); ("b", "a"); ("c", "d")] rows out
           [(Text "a", Num 8); (Text "b", Num 5); (Text "c", Num 7)] merged w).
  - done.
  - done.
  - done.
  - done.
  - done.
  - done.
  - done.
  - done.
  - done.
  - done.
  - by vm_compute.
  - by vm_compute.
  - by vm_compute.
  - done.
Defined.

(** X6, witness: two students, a configuration of the four required keys. *)
Lemma main_without_partners_two :
  let grades := "a,8.0" +:+ LF +:+ "b,5.0" +:+ LF in
  let w := World {[ "c.json" := "CFG"; "g.txt" := grades ]} [] (λ _ _, None) in
  let config := [("points", "10"); ("assignment", "Project 4"); ("grades", "g.txt");
                 ("output_file", "out.canvas")] in
  let json_load := λ js : string, if bool_decide (js = "CFG") then Some config else None in
  let df := [(Text "a", Num 8); (Text "b", Num 5)] in
  main decimal one_decimal one_decimal json_load (λ _, Ok []) "c.json" w
  = (Return tt,
     World (<["out.canvas" := canvas_text one_decimal one_decimal df "Project 4" "10"]> (files w))
           (trace w ++ [OpenConfig "c.json"; OpenGrades "g.txt"; OpenOutput "out.canvas"])
           (refuses w)).
Proof.
  intros grades w config json_load df.
  apply (main_without_partners decimal one_decimal one_decimal json_load (λ _, Ok [])
           "c.json" "CFG" "g.txt" grades "out.canvas" "Project 4" "10" config df w).
  - done.
  - done.
  - done.
  - done.
  - done.
  - done.
  - done.
  - done.
  - by vm_compute.
  - done.
Defined.

(** X7, witness: a and b submitted, c and e name partners that did not. *)
Lemma merge_index_of_score_record_five :
  let df := [(Text "a", Num 8); (Text "b", Num 5); (Text "c", Num 7); (Text "e", Num 3)] in
  let p := [("a", "b"); ("b", "a"); ("c", "d"); ("e", "f")] in
  ∃ merged, merge_partners_grades df (Some p) = Ok merged ∧
    index merged = index df ++ omap (absent_partner p df) (index df).
Proof.
  intros df p. apply (merge_index_of_score_record df p). small_score_record.
Defined.

(** X8, witness: a pair that submitted twice and a third student who names
    one of the two. *)
Lemma merge_never_raises_a_score_three :
  let df := [(Text "a", Num 8); (Text "b", Num 5); (Text "c", Num 1)] in
  let p := [("a", "b"); ("b", "a"); ("c", "a")] in
  ∃ merged, merge_partners_grades df (Some p) = Ok merged ∧
    ∀ label q, (label, Num q) ∈ df →
      ∃ q', loc merged label = [Num q'] ∧ (q' <= q)%Q.
Proof.
  intros df p. apply (merge_never_raises_a_score df p). small_score_record.
Defined.

(** X9, witness: c is in no pair. *)
Lemma merge_leaves_unpaired_student_c :
  let df := [(Text "a", Num 8); (Text "b", Num 5); (Text "c", Num 7)] in
  let p := [("a", "b"); ("b", "a")] in
  ∃ merged, merge_partners_grades df (Some p) = Ok merged ∧ loc merged (Text "c") = [Num 7].
Proof.
  intros df p. apply (merge_leaves_unpaired_student df p (Text "c") (Num 7)).
  - small_score_record.
  - right. right. left.
  - by intros s [= <-].
  - intros c partner Hc Hp. simpl in Hc. index_cases Hc; vm_compute in Hp; by simplify_eq.
Defined.

(** X10, witness: the relation of another section; the record has a student
    twice and a score that is no number. *)
Lemma merge_with_foreign_relation_other_section :
  let df := [(Text "a", Num 8); (Text "a", Text "late"); (Text "b", NaN)] in
  merge_partners_grades df (Some [("x", "y"); ("y", "x")]) = Ok df.
Proof.
  intros df. apply (merge_with_foreign_relation df [("x", "y"); ("y", "x")]).
  intros s Hs. simpl in Hs. index_cases Hs; done.
Defined.

(** X11, witness: a submitted twice. *)
Lemma merge_raises_on_repeated_student_a :
  let df := [(Text "a", Num 8); (Text "b", Num 5); (Text "a", Num 9)] in
  is_ok (merge_partners_grades df (Some [("a", "b")])) = false.
Proof.
  intros df.
  apply (merge_raises_on_repeated_student df [("a", "b")] "a" "b" (Num 8) (Num 9) []).
  - done.
  - done.
  - right. left.
Defined.

(** X14, witness: a line of blanks between two students. *)
Lemma Grades_init_skips_blank_lines_middle :
  Grades_init decimal (["a,8.0"] ++ "  " :: ["b,5.0"])
  = Grades_init decimal (["a,8.0"] ++ ["b,5.0"]).
Proof.
  apply (Grades_init_skips_blank_lines decimal ["a,8.0"] ["b,5.0"] "  ").
  - done.
  - done.
Defined.

(** The place X14 leaves out: the mark of the first line is dropped, the mark
    of a line that comes after a blank one is kept in the key. *)
Example Grades_init_blank_line_before_mark :
  Grades_init decimal [BOM +:+ "al,1"] = Ok [(Text "al", Num 1)]
  ∧ Grades_init decimal [""; BOM +:+ "al,1"] = Ok [(Text (BOM +:+ "al"), Num 1)].
Proof. by vm_compute. Qed.
